(** * discord-trivia: the game object, its option store and its collectors

    A shallow embedding of the two revisions of the [TriviaGame] class found
    in the repository:

    - [Module ClassesTriviaGame]: [src/Classes/TriviaGame.ts], the revision
      whose [start] fetches the guild and the channel and checks the "one game
      per channel" guard;
    - [Module TriviaGame]: the class revision that owns the queue collector,
      the question collector and the game loop ([startComponentCollector],
      [emitQuestion], [beginGameLoop], [end]).

    JavaScript numbers are embedded as [Z] (only integral option values are
    covered), collections ([Collection], a [Map]) as [gmap] keyed by
    snowflake strings, and calls into the chat SDK as entries of an effect
    log kept in call order.  Event handlers are embedded as state
    transformers that run to completion: one handler invocation is one
    function application.  The queue handler is given a second time cut at
    its [await]s ([queueDispatch], [queueResume], [eventLoop]), to relate
    the run-to-completion reading to handlers that overlap; so is the
    question handler ([Module QuestionTurns]).  [collector.endReason] is the
    getter of the SDK's interaction collector ([Module InteractionCollector]),
    read on the collector the queue creates. *)

From Stdlib Require Import ZArith String List Bool Lia.
From Stdlib Require Import DecimalString DecimalNat.
From stdpp Require Import base option gmap strings list fin_maps.

Local Open Scope string_scope.
Local Open Scope list_scope.
Local Open Scope Z_scope.

(** ** JavaScript preliminaries *)

(** A string-or-null value used in a boolean position: [null] and the empty
    string are falsy, every other string is truthy. *)
Definition truthy (v : option string) : bool :=
  match v with
  | None => false
  | Some s => negb (String.eqb s "")
  end.

(** Object identity of a [TriviaGame] instance. *)
Definition GameRef := nat.

(** Address of an options object in the JavaScript heap. *)
Definition Loc := nat.

(** Errors that reach a [reject] call. *)
Inductive TriviaError : Type :=
  | TypeError (message : string)
  | DiscordTriviaError (message : string) (code : string)
  | ThrownBy (origin : string) (message : string).

(** The promise returned by [start]: settling is first-come, a later
    [resolve] or [reject] is ignored. *)
Inductive Promise : Type :=
  | Pending
  | Rejected (e : TriviaError).

Definition reject (e : TriviaError) (p : Promise) : Promise :=
  match p with
  | Pending => Rejected e
  | Rejected e0 => Rejected e0
  end.

(** ** Code between [try] and [catch]

    A state transformer over the mutable state [S] that either completes
    with a value or throws. *)
Definition Exec (S A : Type) : Type := S -> S * (TriviaError + A).

Definition ret {S A} (a : A) : Exec S A := fun w => (w, inr a).

Definition bind {S A B} (c : Exec S A) (k : A -> Exec S B) : Exec S B :=
  fun w =>
    match c w with
    | (w', inl e) => (w', inl e)
    | (w', inr a) => k a w'
    end.

Definition throw {S A} (e : TriviaError) : Exec S A := fun w => (w, inl e).

Definition gets {S A} (f : S -> A) : Exec S A := fun w => (w, inr (f w)).

Definition modify {S} (f : S -> S) : Exec S unit := fun w => (f w, inr tt).

(** [await p]: the value of a fulfilled promise, a throw for a rejected one. *)
Definition await {S A} (outcome : TriviaError + A) : Exec S A :=
  match outcome with
  | inl e => throw e
  | inr a => ret a
  end.

(** A call that returns nothing and may throw. *)
Definition orThrow {S} (thrown : option TriviaError) : Exec S unit :=
  match thrown with
  | Some e => throw e
  | None => ret tt
  end.

Definition when {S} (b : bool) (c : Exec S unit) : Exec S unit :=
  if b then c else ret tt.

Definition throwIf {S} (b : bool) (e : TriviaError) : Exec S unit :=
  if b then throw e else ret tt.

Declare Scope exec_scope.
Delimit Scope exec_scope with exec.
Notation "x <- c ;; k" := (bind c (fun x => k))
  (at level 100, c at next level, right associativity) : exec_scope.
Notation "c ;; k" := (bind c (fun _ => k))
  (at level 100, right associativity) : exec_scope.

(** ** The revision of [src/Classes/TriviaGame.ts] *)
Module ClassesTriviaGame.

(** The parts of a [MessageEmbed] / [MessageButton] the defaults set. *)
Record MessageEmbed : Type := mkEmbed {
  embedColor : string;
  embedTitle : string;
  embedDescription : option string;
  embedFooter : option string
}.

Record MessageButton : Type := mkButton {
  buttonLabel : string;
  buttonStyle : string
}.

Record GameMessages : Type := mkGameMessages {
  alreadyJoined : string;
  baseLeaderboardEmbed : MessageEmbed;
  gameEmbed : MessageEmbed;
  gameEmbedStart : MessageEmbed;
  joinButton : MessageButton;
  joinedQueue : string;
  playerJoinedQueue : string;
  startMessage : string
}.

(** [TriviaGameOptionsStrict]: every key present. *)
Record TriviaGameOptionsStrict : Type := mkStrict {
  minPlayerCount : Z;
  maxPlayerCount : Z;
  timePerQuestion : Z;
  triviaCategory : option string;
  questionAmount : Z;
  questionDifficulty : option string;
  questionType : option string;
  queueTime : Z;
  gameMessages : GameMessages
}.

(** [TriviaGameOptions]: the caller's object; [None] is an absent key. *)
Record TriviaGameOptions : Type := mkOptions {
  minPlayerCount_opt : option Z;
  maxPlayerCount_opt : option Z;
  timePerQuestion_opt : option Z;
  triviaCategory_opt : option (option string);
  questionAmount_opt : option Z;
  questionDifficulty_opt : option (option string);
  questionType_opt : option (option string);
  queueTime_opt : option Z;
  gameMessages_opt : option GameMessages
}.

Definition noKeys : TriviaGameOptions :=
  mkOptions None None None None None None None None None.

(** The literal of [static readonly defaults]. *)
Definition defaults : TriviaGameOptionsStrict := {|
  minPlayerCount := 1;
  maxPlayerCount := 50;
  timePerQuestion := 20000;
  triviaCategory := None;
  questionAmount := 10;
  questionDifficulty := None;
  questionType := None;
  queueTime := 15000;
  gameMessages := {|
    alreadyJoined := "You already joined this game!";
    baseLeaderboardEmbed :=
      mkEmbed "BLUE" "Trivia game leaderboard." None None;
    gameEmbed :=
      mkEmbed "BLUE" "Trivia Game"
        (Some "A new trivia game is starting!") (Some "Discord Trivia");
    gameEmbedStart :=
      mkEmbed "BLUE" "Trivia Game Started"
        (Some "The game has started! All the players have joined.")
        (Some "Discord Trivia");
    joinButton := mkButton "Join" "PRIMARY";
    joinedQueue := "You have joined the queue!";
    playerJoinedQueue := "{{playerMention}} has joined the queue";
    startMessage :=
      "The game has started waiting for players. Once all the players have joined the game will begin!"
  |}
|}.

#[global] Instance TriviaGameOptionsStrict_inhabited :
  Inhabited TriviaGameOptionsStrict := populate defaults.

(** The heap of options objects.  The class initialiser allocates the
    object of [TriviaGame.defaults] once, at [defaultsLoc]. *)
Definition defaultsLoc : Loc := 0%nat.

Definition initialHeap : gmap Loc TriviaGameOptionsStrict :=
  {[ defaultsLoc := defaults ]}.

(** [Object.assign] copies each own key of the source over the target. *)
Definition assignFields (target : TriviaGameOptionsStrict)
    (source : TriviaGameOptions) : TriviaGameOptionsStrict := {|
  minPlayerCount := default (minPlayerCount target) (minPlayerCount_opt source);
  maxPlayerCount := default (maxPlayerCount target) (maxPlayerCount_opt source);
  timePerQuestion := default (timePerQuestion target) (timePerQuestion_opt source);
  triviaCategory := default (triviaCategory target) (triviaCategory_opt source);
  questionAmount := default (questionAmount target) (questionAmount_opt source);
  questionDifficulty :=
    default (questionDifficulty target) (questionDifficulty_opt source);
  questionType := default (questionType target) (questionType_opt source);
  queueTime := default (queueTime target) (queueTime_opt source);
  gameMessages := default (gameMessages target) (gameMessages_opt source)
|}.

(** [Object.assign(target, source)] writes into the object at [target] and
    returns that same object. *)
Definition objectAssign (target : Loc) (source : TriviaGameOptions)
    (heap : gmap Loc TriviaGameOptionsStrict)
    : gmap Loc TriviaGameOptionsStrict * Loc :=
  (alter (fun o => assignFields o source) target heap, target).

(** The fields the constructor sets that later code reads. *)
Record Game : Type := mkGame {
  self : GameRef;
  options : Loc
}.

(** [constructor(interaction, manager, options?)]:
    [if (options) this.options = Object.assign(TriviaGame.defaults, options)
     else this.options = TriviaGame.defaults]. *)
Definition construct (this : GameRef) (opts : option TriviaGameOptions)
    (heap : gmap Loc TriviaGameOptionsStrict)
    : gmap Loc TriviaGameOptionsStrict * Game :=
  match opts with
  | Some o =>
      let '(heap', l) := objectAssign defaultsLoc o heap in
      (heap', mkGame this l)
  | None => (heap, mkGame this defaultsLoc)
  end.

(** [this.options], read through the reference. *)
Definition readOptions (heap : gmap Loc TriviaGameOptionsStrict) (g : Game)
    : TriviaGameOptionsStrict :=
  heap !!! options g.

(** *** [start] *)

Record Guild : Type := mkGuild { guildIdOf : string }.

Record Channel : Type := mkChannel {
  id : string;
  isText : bool
}.

(** What the command interaction and the SDK hand to one call of [start]:
    the interaction's ids, the outcome of the two awaited fetches (a
    rejection, or the fetched value, the channel possibly [null]), and
    what the awaited [startComponentCollector] (a function of
    [../Functions], not part of this file) throws, if anything. *)
Record StartEnv : Type := mkStartEnv {
  guildId : option string;
  channelId : string;
  guildsFetch : TriviaError + Guild;
  channelsFetch : TriviaError + option Channel;
  collectorThrows : option TriviaError
}.

Inductive Effect : Type :=
  | GuildsFetch (guild : string)
  | ChannelsFetch (channel : string)
  | InteractionReply (content : string) (ephemeral : bool)
  | StartComponentCollector (game : GameRef) (guild : Guild) (channel : Channel).

(** The mutable state [start] runs against: the options heap, the
    manager's [games] collection, the calls made so far, and the promise
    [start] returned. *)
Record World : Type := mkWorld {
  heap : gmap Loc TriviaGameOptionsStrict;
  games : gmap string GameRef;
  log : list Effect;
  promise : Promise
}.

Definition emit (e : Effect) : Exec World unit :=
  modify (fun w => mkWorld (heap w) (games w) (log w ++ [e]) (promise w)).

Definition gamesSet (k : string) (g : GameRef) : Exec World unit :=
  modify (fun w => mkWorld (heap w) (<[k := g]> (games w)) (log w) (promise w)).

Definition callReject (e : TriviaError) : Exec World unit :=
  modify (fun w => mkWorld (heap w) (games w) (log w) (reject e (promise w))).

Definition gameInProgress : TriviaError :=
  DiscordTriviaError "There can only be one ongoing game per channel"
    "GAME_IN_PROGRESS".

Section Start.

(** [validateTriviaGameOptions] lives in [../Utility] and is not part of
    this file: it is taken as given.  [Some e] is a throw of [e]. *)
Variable validateTriviaGameOptions :
  TriviaGameOptionsStrict -> option TriviaError.

Definition notText : TriviaError :=
  TypeError "channel returned null or is not of type text".

(** The statements of the [try] block, in order.  The [reject] of the
    [games.has] test is a plain call: control falls through to
    [games.set]. *)
Definition startBody (env : StartEnv) (this : Game) : Exec World unit :=
  (opts <- gets (fun w => readOptions (heap w) this) ;;
   orThrow (validateTriviaGameOptions opts) ;;
   throwIf (negb (truthy (guildId env))) (TypeError "guildId returned falsey") ;;
   emit (GuildsFetch (default "" (guildId env))) ;;
   guild <- await (guildsFetch env) ;;
   emit (ChannelsFetch (channelId env)) ;;
   fetched <- await (channelsFetch env) ;;
   match fetched with
   | None => throw notText
   | Some channel =>
       throwIf (negb (isText channel)) notText ;;
       has <- gets (fun w => bool_decide (is_Some (games w !! id channel))) ;;
       when has (callReject gameInProgress) ;;
       gamesSet (id channel) (self this) ;;
       options <- gets (fun w => readOptions (heap w) this) ;;
       emit (InteractionReply (startMessage (gameMessages options)) true) ;;
       emit (StartComponentCollector (self this) guild channel) ;;
       orThrow (collectorThrows env)
   end)%exec.

(** [start()]: the executor runs the [try] block; the [catch] clause
    passes whatever was thrown to [reject]. *)
Definition start (env : StartEnv) (this : Game) (w : World) : World :=
  match startBody env this w with
  | (w', inl err) => mkWorld (heap w') (games w') (log w') (reject err (promise w'))
  | (w', inr _) => w'
  end.

End Start.

End ClassesTriviaGame.

(** ** The SDK's interaction collector, as far as [endReason] reads it

    [createMessageComponentCollector(options)] builds an interaction
    collector from the options it is given (discord.js 13, the release line
    the game classes are written against).  Its [endReason] getter names
    the configured limit that has been reached, if any, and is [null]
    otherwise; the reason string handed to [stop] goes to the ["end"]
    listeners as an argument and is not what the getter returns. *)
Module InteractionCollector.

(** The options a collector can be created with; [None] is an absent key. *)
Record Options : Type := mkOptions {
  time : option Z;
  max : option Z;
  maxComponents : option Z;
  maxUsers : option Z
}.

(** What the collector has counted so far: [total], [collected.size],
    [users.size]. *)
Record Counts : Type := mkCounts {
  total : Z;
  collectedSize : Z;
  usersSize : Z
}.

Record Collector : Type := mkCollector {
  options : Options;
  counts : Counts
}.

(** [limit && count >= limit]: an absent or zero limit is falsy. *)
Definition reached (limit : option Z) (count : Z) : bool :=
  match limit with
  | Some n => negb (n =? 0) && (n <=? count)
  | None => false
  end.

(** [get endReason()]. *)
Definition endReason (c : Collector) : option string :=
  if reached (max (options c)) (total (counts c)) then Some "limit"
  else if reached (maxComponents (options c)) (collectedSize (counts c))
  then Some "componentLimit"
  else if reached (maxUsers (options c)) (usersSize (counts c))
  then Some "userLimit"
  else None.

End InteractionCollector.

(** ** The revision with the collectors and the game loop *)
Module TriviaGame.

(** *** Options *)

Record TriviaGameOptionsStrict : Type := mkStrict {
  minPlayerCount : Z;
  maxPlayerCount : Z;
  timePerQuestion : Z;
  triviaCategory : option string;
  questionAmount : Z;
  questionDifficulty : option string;
  questionType : option string;
  queueTime : Z
}.

(** [TriviaGameOptions]: the caller's object; [None] is an absent key. *)
Record TriviaGameOptions : Type := mkOptions {
  minPlayerCount_opt : option Z;
  maxPlayerCount_opt : option Z;
  timePerQuestion_opt : option Z;
  triviaCategory_opt : option (option string);
  questionAmount_opt : option Z;
  questionDifficulty_opt : option (option string);
  questionType_opt : option (option string);
  queueTime_opt : option Z
}.

Definition noKeys : TriviaGameOptions :=
  mkOptions None None None None None None None None.

(** The literal of [static readonly defaults]. *)
Definition defaults : TriviaGameOptionsStrict := {|
  minPlayerCount := 1;
  maxPlayerCount := 50;
  timePerQuestion := 20000;
  triviaCategory := None;
  questionAmount := 10;
  questionDifficulty := None;
  questionType := None;
  queueTime := 15000
|}.

#[global] Instance TriviaGameOptionsStrict_inhabited :
  Inhabited TriviaGameOptionsStrict := populate defaults.

Definition defaultsLoc : Loc := 0%nat.

Definition initialHeap : gmap Loc TriviaGameOptionsStrict :=
  {[ defaultsLoc := defaults ]}.

Definition assignFields (target : TriviaGameOptionsStrict)
    (source : TriviaGameOptions) : TriviaGameOptionsStrict := {|
  minPlayerCount := default (minPlayerCount target) (minPlayerCount_opt source);
  maxPlayerCount := default (maxPlayerCount target) (maxPlayerCount_opt source);
  timePerQuestion := default (timePerQuestion target) (timePerQuestion_opt source);
  triviaCategory := default (triviaCategory target) (triviaCategory_opt source);
  questionAmount := default (questionAmount target) (questionAmount_opt source);
  questionDifficulty :=
    default (questionDifficulty target) (questionDifficulty_opt source);
  questionType := default (questionType target) (questionType_opt source);
  queueTime := default (queueTime target) (queueTime_opt source)
|}.

Definition objectAssign (target : Loc) (source : TriviaGameOptions)
    (heap : gmap Loc TriviaGameOptionsStrict)
    : gmap Loc TriviaGameOptionsStrict * Loc :=
  (alter (fun o => assignFields o source) target heap, target).

(** The fields of a game that stay fixed after construction: its
    identity, [this.channel.id] and the reference held in [this.options]. *)
Record Game : Type := mkGame {
  self : GameRef;
  channelId : string;
  options : Loc
}.

(** [this.options = options ? Object.assign(TriviaGame.defaults, options)
                            : TriviaGame.defaults]. *)
Definition construct (this : GameRef) (channel : string)
    (opts : option TriviaGameOptions)
    (heap : gmap Loc TriviaGameOptionsStrict)
    : gmap Loc TriviaGameOptionsStrict * Game :=
  match opts with
  | Some o =>
      let '(heap', l) := objectAssign defaultsLoc o heap in
      (heap', mkGame this channel l)
  | None => (heap, mkGame this channel defaultsLoc)
  end.

Definition readOptions (heap : gmap Loc TriviaGameOptionsStrict) (g : Game)
    : TriviaGameOptionsStrict :=
  heap !!! options g.

(** *** Players, questions, interactions *)

Record GuildMember : Type := mkMember {
  memberId : string;
  memberDisplayName : string
}.

Record LeaderboardPosition : Type := mkPosition {
  previous : Z;
  current : Z
}.

(** A [TriviaPlayer]: the fetched member object with the game's own keys
    assigned onto it. *)
Record TriviaPlayer : Type := mkPlayer {
  id : string;
  displayName : string;
  points : Z;
  hasAnswered : bool;
  isCorrect : bool;
  leaderboardPosition : LeaderboardPosition
}.

Inductive QuestionType : Type := boolean | multiple.

(** A [TriviaQuestion] of the question library; [checkAnswer] receives
    whatever [allAnswers[...]] evaluates to, [None] being [undefined]. *)
Record TriviaQuestion : Type := mkQuestion {
  value : string;
  type : QuestionType;
  allAnswers : list string;
  checkAnswer : option string -> bool
}.

(** A button press as a handler sees it.  [customIdIndex] is the array
    index [Number(i.customId)] denotes, [None] when it denotes none;
    [fetched] is what [guild.members.fetch(i.user.id)] yields for it. *)
Record MessageComponentInteraction : Type := mkPress {
  userId : string;
  username : string;
  customIdIndex : option nat;
  replied : bool;
  fetched : option GuildMember
}.

Inductive ButtonRow : Type :=
  | buttonRowChoicesBoolean
  | buttonRowChoicesMultiple
  | buttonRowQueue.

(** [TriviaGame.buttonRows]: the rows keyed by [boolean], [multiple],
    [queue]. *)
Definition buttonRows (t : QuestionType) : ButtonRow :=
  match t with
  | boolean => buttonRowChoicesBoolean
  | multiple => buttonRowChoicesMultiple
  end.

(** What [channel.send] is given. *)
Inductive Outgoing : Type :=
  | Content (text : string)
  | GameQueueStart (row : ButtonRow)
  | GameStart
  | Question (q : TriviaQuestion) (row : ButtonRow)
  | LeaderboardUpdate (standings : gmap string TriviaPlayer).

(** Calls that leave the game object, in the order they are made. *)
Inductive Effect : Type :=
  | InteractionReply (content : string) (ephemeral : bool)
  | ComponentReply (user : string) (content : string) (ephemeral : bool)
  | ComponentFollowUp (user : string) (content : string) (ephemeral : bool)
  | ChannelSend (message : Outgoing)
  | CreateMessageComponentCollector (filtered : bool) (time : Z)
  | CollectorStop (reason : string)
  | QueueMessageDelete
  | Wait (ms : Z)
  | GetQuestions (amount : Z) (difficulty : option string)
      (type : option string).

(** The mutable state around one game: the manager's [games], the game's
    [players] and [questions], the reason given to the queue collector's
    [stop] (if it was called), the calls made so far and the promise
    returned by [start]. *)
Record State : Type := mkState {
  games : gmap string GameRef;
  players : gmap string TriviaPlayer;
  questions : list TriviaQuestion;
  queueStopped : option string;
  log : list Effect;
  promise : Promise
}.

Definition emit (e : Effect) (st : State) : State :=
  mkState (games st) (players st) (questions st) (queueStopped st)
    (log st ++ [e]) (promise st).

Definition setGames (g : gmap string GameRef) (st : State) : State :=
  mkState g (players st) (questions st) (queueStopped st) (log st) (promise st).

Definition setPlayers (p : gmap string TriviaPlayer) (st : State) : State :=
  mkState (games st) p (questions st) (queueStopped st) (log st) (promise st).

Definition setQuestions (qs : list TriviaQuestion) (st : State) : State :=
  mkState (games st) (players st) qs (queueStopped st) (log st) (promise st).

Definition setPromise (p : Promise) (st : State) : State :=
  mkState (games st) (players st) (questions st) (queueStopped st) (log st) p.

(** [collector.stop(reason)] on the queue collector. *)
Definition collectorStop (reason : string) (st : State) : State :=
  emit (CollectorStop reason)
    (mkState (games st) (players st) (questions st)
       (match queueStopped st with
        | Some r => Some r
        | None => Some reason
        end)
       (log st) (promise st)).

(** The helper [reply(int, obj)]: [followUp] on an interaction that was
    already replied to, [reply] otherwise. *)
Definition reply (int : MessageComponentInteraction) (content : string)
    (ephemeral : bool) (st : State) : State :=
  if replied int
  then emit (ComponentFollowUp (userId int) content ephemeral) st
  else emit (ComponentReply (userId int) content ephemeral) st.

(** The state a constructed game starts from: [players] is a new
    [Collection], [questions] is [[]], nothing was called yet. *)
Definition initialState (registry : gmap string GameRef) : State :=
  mkState registry ∅ [] None [] Pending.

(** *** [end] *)

(** [end()]: [this.manager.games.delete(this.channel.id)]. *)
Definition end_ (this : Game) (st : State) : State :=
  setGames (delete (channelId this) (games st)) st.

(** *** [emitQuestion] and [beginGameLoop] *)

(** [question.allAnswers[Number(i.customId)]]. *)
Definition pressedAnswer (q : TriviaQuestion)
    (i : MessageComponentInteraction) : option string :=
  match customIdIndex i with
  | Some n => allAnswers q !! n
  | None => None
  end.

(** [player.points++]. *)
Definition incrementPoints (p : TriviaPlayer) : TriviaPlayer :=
  mkPlayer (id p) (displayName p) (points p + 1) (hasAnswered p)
    (isCorrect p) (leaderboardPosition p).

(** [member.displayName || i.user.username]. *)
Definition shownName (member : GuildMember)
    (i : MessageComponentInteraction) : string :=
  if truthy (Some (memberDisplayName member))
  then memberDisplayName member
  else username i.

Definition lockedIn (member : GuildMember)
    (i : MessageComponentInteraction) : Effect :=
  ChannelSend (Content ("**" +:+ shownName member i +:+ "** has locked in!")).

(** The question collector's ["collect"] handler.  [players.get] yields
    the player object, whose [points] is bumped in place when the pressed
    answer checks; a press whose player or member is missing makes the
    handler throw at the first property access on it. *)
Definition questionCollect (q : TriviaQuestion)
    (i : MessageComponentInteraction) (st : State) : State :=
  match players st !! userId i with
  | Some player =>
      let st1 :=
        if checkAnswer q (pressedAnswer q i)
        then setPlayers (<[userId i := incrementPoints player]> (players st)) st
        else st in
      match fetched i with
      | Some member => emit (lockedIn member i) st1
      | None => st1
      end
  | None =>
      if checkAnswer q (pressedAnswer q i) then st
      else match fetched i with
           | Some member => emit (lockedIn member i) st
           | None => st
           end
  end.

(** The collector's [filter]: [this.players.has(i.user.id)]. *)
Definition questionFilter (st : State)
    (i : MessageComponentInteraction) : bool :=
  bool_decide (is_Some (players st !! userId i)).

(** One press reaching the question collector: filtered, then handled. *)
Definition questionPress (q : TriviaQuestion) (st : State)
    (i : MessageComponentInteraction) : State :=
  if questionFilter st i then questionCollect q i st else st.

(** The question collector's ["end"] handler. *)
Definition questionEnd (st : State) : State :=
  emit (Wait 5000) (emit (ChannelSend (LeaderboardUpdate (players st))) st).

(** [emitQuestion(question)], with the presses the channel delivers while
    the collector runs.  The handlers never call [stop]: the collector
    runs for the [time] it was created with. *)
Definition emitQuestion (opts : TriviaGameOptionsStrict) (q : TriviaQuestion)
    (presses : list MessageComponentInteraction) (st : State) : State :=
  let st1 := emit (ChannelSend (Question q (buttonRows (type q)))) st in
  let st2 :=
    emit (CreateMessageComponentCollector true (timePerQuestion opts)) st1 in
  questionEnd (fold_left (questionPress q) presses st2).

Definition preparing : Effect :=
  ChannelSend (Content "**Preparing the next question...**").

(** [beginGameLoop()]: [for await (const question of this.questions)].
    [presses] holds, per round, the presses delivered during that round. *)
Fixpoint beginGameLoop (opts : TriviaGameOptionsStrict)
    (qs : list TriviaQuestion)
    (presses : list (list MessageComponentInteraction))
    (st : State) : State :=
  match qs with
  | [] => st
  | q :: rest =>
      let st1 := emit (Wait 5000) (emit preparing st) in
      beginGameLoop opts rest (tail presses)
        (emitQuestion opts q (hd [] presses) st1)
  end.

(** *** [initializeGame] *)

(** [fetchedQuestions] is what the awaited [getQuestions] yields. *)
Definition initializeGame (opts : TriviaGameOptionsStrict)
    (fetchedQuestions : list TriviaQuestion)
    (presses : list (list MessageComponentInteraction))
    (st : State) : State :=
  let st1 :=
    emit (GetQuestions (questionAmount opts) (questionDifficulty opts)
            (questionType opts)) st in
  let st2 := setQuestions fetchedQuestions st1 in
  let st3 := emit (ChannelSend GameStart) st2 in
  beginGameLoop opts (questions st3) presses st3.

(** *** [startComponentCollector] *)

Definition initialPlayer (member : GuildMember) : TriviaPlayer :=
  mkPlayer (memberId member) (memberDisplayName member) 0 false false
    (mkPosition 0 0).

(** The state a record is in when it enters the queue under [key]. *)
Definition freshlyQueued (key : string) (p : TriviaPlayer) : Prop :=
  id p = key
  /\ points p = 0
  /\ hasAnswered p = false
  /\ isCorrect p = false
  /\ previous (leaderboardPosition p) = 0
  /\ current (leaderboardPosition p) = 0.

Definition capacityReached : string :=
  "Game has reached set maximum player capacity".

(** The queue collector's ["collect"] handler. *)
Definition queueCollect (opts : TriviaGameOptionsStrict)
    (int : MessageComponentInteraction) (st : State) : State :=
  if bool_decide (is_Some (players st !! userId int)) then
    reply int "**You are already in the queue**" true st
  else
    match fetched int with
    | None =>
        reply int "Failed to enter you into the queue, please try again" true st
    | Some member =>
        let st1 := reply int "Successfully joined queue" true st in
        let player := initialPlayer member in
        let st2 := setPlayers (<[id player := player]> (players st1)) st1 in
        let st3 :=
          emit (ChannelSend
                  (Content ("**" +:+ displayName player +:+ "** has joined in!")))
            st2 in
        if bool_decide (Z.of_nat (size (players st3)) = maxPlayerCount opts)
        then collectorStop capacityReached st3
        else st3
    end.

(** The same handler cut at its [await]s.  A handler that is waiting for
    the SDK is [Suspended] at one of them; other handlers may run
    meanwhile. *)
Inductive Suspended : Type :=
  | AwaitingFetch (int : MessageComponentInteraction)
  | AwaitingReply (int : MessageComponentInteraction) (member : GuildMember)
  | AwaitingSend (int : MessageComponentInteraction)
  | Finished.

(** From the ["collect"] event to the first [await]: the [players.has]
    test, and in its first branch the call of [reply]. *)
Definition queueDispatch (int : MessageComponentInteraction) (st : State)
    : State * Suspended :=
  if bool_decide (is_Some (players st !! userId int))
  then (reply int "**You are already in the queue**" true st, Finished)
  else (st, AwaitingFetch int).

(** From one [await] to the next. *)
Definition queueResume (opts : TriviaGameOptionsStrict) (k : Suspended)
    (st : State) : State * Suspended :=
  match k with
  | AwaitingFetch int =>
      match fetched int with
      | None =>
          (reply int "Failed to enter you into the queue, please try again"
             true st, Finished)
      | Some member =>
          (reply int "Successfully joined queue" true st,
           AwaitingReply int member)
      end
  | AwaitingReply int member =>
      let player := initialPlayer member in
      let st2 := setPlayers (<[id player := player]> (players st)) st in
      (emit (ChannelSend
               (Content ("**" +:+ displayName player +:+ "** has joined in!")))
         st2,
       AwaitingSend int)
  | AwaitingSend int =>
      (if bool_decide (Z.of_nat (size (players st)) = maxPlayerCount opts)
       then collectorStop capacityReached st
       else st,
       Finished)
  | Finished => (st, Finished)
  end.

(** What the event loop does next: hand a new press to the collector, or
    let the handler started by the [handler]-th press go on to its next
    [await]. *)
Inductive Turn : Type :=
  | Deliver (int : MessageComponentInteraction)
  | Resume (handler : nat).

Definition turn (opts : TriviaGameOptionsStrict)
    (c : State * list Suspended) (t : Turn) : State * list Suspended :=
  let '(st, handlers) := c in
  match t with
  | Deliver int =>
      match queueStopped st with
      | Some _ => c
      | None =>
          let '(st', k) := queueDispatch int st in
          (st', handlers ++ [k])
      end
  | Resume n =>
      match handlers !! n with
      | Some k =>
          let '(st', k') := queueResume opts k st in
          (st', <[n := k']> handlers)
      | None => c
      end
  end.

Definition eventLoop (opts : TriviaGameOptionsStrict) (turns : list Turn)
    (c : State * list Suspended) : State * list Suspended :=
  fold_left (turn opts) turns c.

(** The presses the queue collector hands to its handler, one after the
    other; a stopped collector delivers nothing more. *)
Fixpoint queueCollects (opts : TriviaGameOptionsStrict)
    (presses : list MessageComponentInteraction) (st : State) : State :=
  match presses with
  | [] => st
  | int :: rest =>
      match queueStopped st with
      | Some _ => st
      | None => queueCollects opts rest (queueCollect opts int st)
      end
  end.

(** The collector of the queue:
    [createMessageComponentCollector({ time: this.options.queueTime })]. *)
Definition queueCollector (opts : TriviaGameOptionsStrict)
    (counted : InteractionCollector.Counts) : InteractionCollector.Collector :=
  InteractionCollector.mkCollector
    (InteractionCollector.mkOptions (Some (queueTime opts)) None None None)
    counted.

(** What the queue collector's ["end"] handler meets: whether the queue
    message is [deletable], what the collector has counted, the questions
    [getQuestions] will yield and the presses of each round. *)
Record QueueEndEnv : Type := mkQueueEndEnv {
  deletable : bool;
  counted : InteractionCollector.Counts;
  fetchedQuestions : list TriviaQuestion;
  roundPresses : list (list MessageComponentInteraction)
}.

Definition failedRequirements : Effect :=
  ChannelSend (Content "Game failed to meet minimum player requirements").

(** The queue collector's ["end"] handler. *)
Definition queueEnd (opts : TriviaGameOptionsStrict) (this : Game)
    (env : QueueEndEnv) (st : State) : State :=
  let st1 := if deletable env then emit QueueMessageDelete st else st in
  if truthy (InteractionCollector.endReason (queueCollector opts (counted env)))
     || bool_decide (minPlayerCount opts ≤ Z.of_nat (size (players st1)))
  then initializeGame opts (fetchedQuestions env) (roundPresses env) st1
  else emit failedRequirements (end_ this st1).

(** The queue phase after the collector was created: the presses, then the
    end of the collector. *)
Definition queuePhase (opts : TriviaGameOptionsStrict) (this : Game)
    (presses : list MessageComponentInteraction) (env : QueueEndEnv)
    (st : State) : State :=
  queueEnd opts this env (queueCollects opts presses st).

(** The queue is within capacity: at most [maxPlayerCount] players, and
    the collector stopped exactly when there are [maxPlayerCount]. *)
Definition withinCapacity (opts : TriviaGameOptionsStrict) (st : State)
    : Prop :=
  Z.of_nat (size (players st)) ≤ maxPlayerCount opts
  /\ (is_Some (queueStopped st)
      <-> Z.of_nat (size (players st)) = maxPlayerCount opts).

(** A game has entered its rounds once the game-start embed went out. *)
Definition isGameStart (e : Effect) : bool :=
  match e with
  | ChannelSend GameStart => true
  | _ => false
  end.

Definition started (st : State) : bool := existsb isGameStart (log st).

(** *** [start] *)

(** What the SDK answers during [start]: a rejection of the awaited
    [interaction.reply] or of the awaited [channel.send] of the queue
    message, if any. *)
Record StartEnv : Type := mkStartEnv {
  replyRejects : option TriviaError;
  queueSendRejects : option TriviaError
}.

(** The synchronous part of [startComponentCollector()]: the queue message
    and the collector; the handlers above run on later events. *)
Definition startComponentCollector (opts : TriviaGameOptionsStrict)
    (env : StartEnv) : Exec State unit :=
  (modify (emit (ChannelSend (GameQueueStart buttonRowQueue))) ;;
   orThrow (queueSendRejects env) ;;
   modify (emit (CreateMessageComponentCollector false (queueTime opts))))%exec.

Section Start.

(** The manager's validator is not part of this file: both checks are
    taken as given.  [Some e] is a throw of [e]. *)
Variable validateDiscordStructures : Game -> option TriviaError.
Variable validateGameOptions : TriviaGameOptionsStrict -> option TriviaError.

(** The [try] block of [start()]; [opts] is the object [this.options]
    refers to. *)
Definition startBody (opts : TriviaGameOptionsStrict) (env : StartEnv)
    (this : Game) : Exec State unit :=
  (orThrow (validateDiscordStructures this) ;;
   orThrow (validateGameOptions opts) ;;
   modify (fun st => setGames (<[channelId this := self this]> (games st)) st) ;;
   modify (emit (InteractionReply "Game has been started" true)) ;;
   orThrow (replyRejects env) ;;
   startComponentCollector opts env)%exec.

Definition start (opts : TriviaGameOptionsStrict) (env : StartEnv)
    (this : Game) (st : State) : State :=
  match startBody opts env this st with
  | (st', inl err) => setPromise (reject err (promise st')) st'
  | (st', inr _) => st'
  end.

End Start.

End TriviaGame.

(** * The round lifecycle, as the glossary words it

    "Round: one question's lifecycle: send, collect answers, tally, display
    leaderboard."  The definitions of this module spell that lifecycle out
    as the calls one expects to see, independently of the handlers: they are
    what [TriviaGame.beginGameLoop] is compared with. *)
Module Lifecycle.

Import TriviaGame.

(** Tallying one collected press: a point for the presser when the pressed
    answer is the correct one. *)
Definition tallyPress (q : TriviaQuestion)
    (standings : gmap string TriviaPlayer)
    (i : MessageComponentInteraction) : gmap string TriviaPlayer :=
  match standings !! userId i with
  | Some p =>
      if checkAnswer q (pressedAnswer q i)
      then <[userId i := incrementPoints p]> standings
      else standings
  | None => standings
  end.

Definition tally (q : TriviaQuestion)
    (presses : list MessageComponentInteraction)
    (standings : gmap string TriviaPlayer) : gmap string TriviaPlayer :=
  fold_left (tallyPress q) presses standings.

(** The "locked in" notices of the presses the collector accepts. *)
Definition notices (standings : gmap string TriviaPlayer)
    (presses : list MessageComponentInteraction) : list Effect :=
  flat_map
    (fun i =>
       match standings !! userId i, fetched i with
       | Some _, Some member => [lockedIn member i]
       | _, _ => []
       end)
    presses.

(** One round: announce, pause, send the question with its buttons,
    collect for [timePerQuestion], then display the leaderboard holding
    the tallied points, and pause. *)
Definition round (opts : TriviaGameOptionsStrict) (q : TriviaQuestion)
    (presses : list MessageComponentInteraction)
    (standings : gmap string TriviaPlayer) : list Effect :=
  [preparing; Wait 5000;
   ChannelSend (Question q (buttonRows (type q)));
   CreateMessageComponentCollector true (timePerQuestion opts)]
  ++ notices standings presses
  ++ [ChannelSend (LeaderboardUpdate (tally q presses standings)); Wait 5000].

(** The rounds of all questions, in order, each starting from the
    standings the previous one ended with. *)
Fixpoint rounds (opts : TriviaGameOptionsStrict) (qs : list TriviaQuestion)
    (presses : list (list MessageComponentInteraction))
    (standings : gmap string TriviaPlayer) : list Effect :=
  match qs with
  | [] => []
  | q :: rest =>
      round opts q (hd [] presses) standings
      ++ rounds opts rest (tail presses) (tally q (hd [] presses) standings)
  end.

Fixpoint finalStandings (qs : list TriviaQuestion)
    (presses : list (list MessageComponentInteraction))
    (standings : gmap string TriviaPlayer) : gmap string TriviaPlayer :=
  match qs with
  | [] => standings
  | q :: rest =>
      finalStandings rest (tail presses) (tally q (hd [] presses) standings)
  end.

(** The questions whose message was sent, in sending order. *)
Definition sentQuestions (calls : list Effect) : list TriviaQuestion :=
  flat_map
    (fun e =>
       match e with
       | ChannelSend (Question q _) => [q]
       | _ => []
       end)
    calls.

End Lifecycle.

(** * The button rows of [messageActionRows]

    An action row is embedded as the list of its components, a
    [ButtonBuilder] as the keys the functions set or leave alone. *)
Module MessageActionRows.

Inductive ButtonStyle : Type := Primary | Secondary | Success | Danger | Link.

Record ButtonBuilder : Type := mkButtonBuilder {
  custom_id : option string;
  label : option string;
  style : option ButtonStyle
}.

(** [new ButtonBuilder()]. *)
Definition newButton : ButtonBuilder := mkButtonBuilder None None None.

Definition setCustomId (customId : string) (b : ButtonBuilder) : ButtonBuilder :=
  mkButtonBuilder (Some customId) (label b) (style b).

Definition setLabel (text : string) (b : ButtonBuilder) : ButtonBuilder :=
  mkButtonBuilder (custom_id b) (Some text) (style b).

Definition setStyle (s : ButtonStyle) (b : ButtonBuilder) : ButtonBuilder :=
  mkButtonBuilder (custom_id b) (label b) (Some s).

(** The template literal of an array index: its decimal digits. *)
Definition indexString (i : nat) : string :=
  NilEmpty.string_of_uint (Nat.to_uint i).

(** [builders.map((btn, i) => btn.setCustomId(`${i}`))] as the row's
    components. *)
Definition buttonRowChoicesMultiple (builders : list ButtonBuilder)
    : list ButtonBuilder :=
  imap (fun i btn => setCustomId (indexString i) btn) builders.

(** [[builders[0].setCustomId("1"), builders[1].setCustomId("0")]]: a
    missing builder is [undefined], and the method call on it throws. *)
Definition buttonRowChoicesBoolean (builders : list ButtonBuilder)
    : TriviaError + list ButtonBuilder :=
  match builders !! 0%nat, builders !! 1%nat with
  | Some yes, Some no => inr [setCustomId "1" yes; setCustomId "0" no]
  | _, _ => inl (TypeError "Cannot read properties of undefined")
  end.

Definition buttonRowQueue (s : ButtonStyle) : list ButtonBuilder :=
  [setStyle s (setLabel "Join" (setCustomId "1" newButton))].

End MessageActionRows.

(** * Bookkeeping used to state properties of the game *)
Module Bookkeeping.

Import TriviaGame.

(** One options object laid over an earlier one: the keys of [later] win. *)
Definition overlay (later earlier : TriviaGameOptions) : TriviaGameOptions := {|
  minPlayerCount_opt := minPlayerCount_opt later ∪ minPlayerCount_opt earlier;
  maxPlayerCount_opt := maxPlayerCount_opt later ∪ maxPlayerCount_opt earlier;
  timePerQuestion_opt := timePerQuestion_opt later ∪ timePerQuestion_opt earlier;
  triviaCategory_opt := triviaCategory_opt later ∪ triviaCategory_opt earlier;
  questionAmount_opt := questionAmount_opt later ∪ questionAmount_opt earlier;
  questionDifficulty_opt :=
    questionDifficulty_opt later ∪ questionDifficulty_opt earlier;
  questionType_opt := questionType_opt later ∪ questionType_opt earlier;
  queueTime_opt := queueTime_opt later ∪ queueTime_opt earlier
|}.

(** Games constructed one after the other, each in its channel with its
    options argument; [next] is the identity of the first. *)
Fixpoint constructMany (next : GameRef)
    (requests : list (string * option TriviaGameOptions))
    (heap : gmap Loc TriviaGameOptionsStrict)
    : gmap Loc TriviaGameOptionsStrict * list Game :=
  match requests with
  | [] => (heap, [])
  | (channel, opts) :: rest =>
      let '(heap1, g) := construct next channel opts heap in
      let '(heap2, gs) := constructMany (S next) rest heap1 in
      (heap2, g :: gs)
  end.

(** The options objects that were actually passed, in order. *)
Definition passed (requests : list (string * option TriviaGameOptions))
    : list TriviaGameOptions :=
  omap snd requests.

(** A press whose member object is found and carries the presser's id. *)
Definition wellFetched (int : MessageComponentInteraction) : Prop :=
  exists member, fetched int = Some member /\ memberId member = userId int.

(** A press by [key] on an answer that checks. *)
Definition isCorrectPress (q : TriviaQuestion) (key : string)
    (i : MessageComponentInteraction) : bool :=
  bool_decide (userId i = key) && checkAnswer q (pressedAnswer q i).

Definition correctPresses (q : TriviaQuestion)
    (presses : list MessageComponentInteraction) (key : string) : nat :=
  length (List.filter (isCorrectPress q key) presses).

(** The correct presses of [key] over all rounds. *)
Fixpoint earned (qs : list TriviaQuestion)
    (presses : list (list MessageComponentInteraction)) (key : string) : nat :=
  match qs with
  | [] => 0%nat
  | q :: rest =>
      (correctPresses q (hd [] presses) key + earned rest (tail presses) key)%nat
  end.

(** A record with [n] added to [points] and every other key as it was. *)
Definition addPoints (n : Z) (p : TriviaPlayer) : TriviaPlayer :=
  mkPlayer (id p) (displayName p) (points p + n) (hasAnswered p)
    (isCorrect p) (leaderboardPosition p).

End Bookkeeping.

(** * The question round, one await at a time

    [emitQuestion] with its listeners cut at their [await]s: the
    ["collect"] handler waits for [guild.members.fetch] between
    [players.get] and the check of the answer; the ["end"] handler sends
    the leaderboard when the collector's timer runs out and pauses once the
    message went out.  Nothing makes the ["end"] handler wait for
    ["collect"] handlers that are still suspended. *)
Module QuestionTurns.

Import TriviaGame.

(** A ["collect"] handler: waiting for the member object, or through. *)
Inductive Waiting : Type :=
  | AwaitingMember (i : MessageComponentInteraction)
  | Settled.

(** From the [await] to the end of the handler: the check of the answer,
    [points++] on the player object, the notice.  The object [players.get]
    returned before the [await] is the one stored under the presser's id. *)
Definition questionResume (q : TriviaQuestion) (w : Waiting) (st : State)
    : State * Waiting :=
  match w with
  | AwaitingMember i => (questionCollect q i st, Settled)
  | Settled => (st, Settled)
  end.

(** Where the round is: the collector runs, the leaderboard is being sent,
    or the closing pause has begun. *)
Inductive Phase : Type := Collecting | ShowingLeaderboard | Pausing.

Record Round : Type := mkRound {
  state : State;
  handlers : list Waiting;
  phase : Phase
}.

(** What happens next: a press reaches the collector, the member fetch of
    the [handler]-th press resolves, the collector's timer runs out, or the
    send of the leaderboard resolves. *)
Inductive RoundTurn : Type :=
  | Press (i : MessageComponentInteraction)
  | MemberFetched (handler : nat)
  | TimeUp
  | LeaderboardSent.

Definition roundTurn (q : TriviaQuestion) (r : Round) (t : RoundTurn) : Round :=
  match t with
  | Press i =>
      match phase r with
      | Collecting =>
          mkRound (state r)
            (handlers r
             ++ [if questionFilter (state r) i then AwaitingMember i
                 else Settled])
            Collecting
      | _ => r
      end
  | MemberFetched n =>
      match handlers r !! n with
      | Some w =>
          let '(st', w') := questionResume q w (state r) in
          mkRound st' (<[n := w']> (handlers r)) (phase r)
      | None => r
      end
  | TimeUp =>
      match phase r with
      | Collecting =>
          mkRound
            (emit (ChannelSend (LeaderboardUpdate (players (state r))))
               (state r))
            (handlers r) ShowingLeaderboard
      | _ => r
      end
  | LeaderboardSent =>
      match phase r with
      | ShowingLeaderboard =>
          mkRound (emit (Wait 5000) (state r)) (handlers r) Pausing
      | _ => r
      end
  end.

(** [emitQuestion(question)] under a given order of events. *)
Definition emitQuestionTurns (opts : TriviaGameOptionsStrict)
    (q : TriviaQuestion) (turns : list RoundTurn) (st : State) : Round :=
  let st1 := emit (ChannelSend (Question q (buttonRows (type q)))) st in
  let st2 :=
    emit (CreateMessageComponentCollector true (timePerQuestion opts)) st1 in
  fold_left (roundTurn q) turns (mkRound st2 [] Collecting).

(** The order of events in which every member fetch resolves before the
    next event: press, fetch, press, fetch, ..., timer, leaderboard sent.
    [k] is the number of presses before the first of [presses]. *)
Fixpoint oneByOne (k : nat) (presses : list MessageComponentInteraction)
    : list RoundTurn :=
  match presses with
  | [] => [TimeUp; LeaderboardSent]
  | i :: rest => Press i :: MemberFetched k :: oneByOne (S k) rest
  end.

End QuestionTurns.

(** * Sample inputs *)
Module Samples.

(** The caller's object [{ maxPlayerCount: 5 }]. *)
Definition onlyMax5 : TriviaGame.TriviaGameOptions :=
  TriviaGame.mkOptions None (Some 5) None None None None None None.

(** The caller's object [{ minPlayerCount: 2 }]. *)
Definition onlyMin2 : TriviaGame.TriviaGameOptions :=
  TriviaGame.mkOptions (Some 2) None None None None None None None.

Definition legacyOnlyMax5 : ClassesTriviaGame.TriviaGameOptions :=
  ClassesTriviaGame.mkOptions None (Some 5) None None None None None None None.

Definition legacyOnlyMin2 : ClassesTriviaGame.TriviaGameOptions :=
  ClassesTriviaGame.mkOptions (Some 2) None None None None None None None None.

(** Three games built one after the other: with [{ maxPlayerCount: 5 }],
    with [{ minPlayerCount: 2 }], with no options at all. *)
Definition threeGames
    : gmap Loc TriviaGame.TriviaGameOptionsStrict
      * (TriviaGame.Game * TriviaGame.Game * TriviaGame.Game) :=
  let '(h1, a) :=
    TriviaGame.construct 1%nat "channel-a" (Some onlyMax5)
      TriviaGame.initialHeap in
  let '(h2, b) := TriviaGame.construct 2%nat "channel-b" (Some onlyMin2) h1 in
  let '(h3, c) := TriviaGame.construct 3%nat "channel-c" None h2 in
  (h3, (a, b, c)).

Definition legacyThreeGames
    : gmap Loc ClassesTriviaGame.TriviaGameOptionsStrict
      * (ClassesTriviaGame.Game * ClassesTriviaGame.Game
         * ClassesTriviaGame.Game) :=
  let '(h1, a) :=
    ClassesTriviaGame.construct 1%nat (Some legacyOnlyMax5)
      ClassesTriviaGame.initialHeap in
  let '(h2, b) := ClassesTriviaGame.construct 2%nat (Some legacyOnlyMin2) h1 in
  let '(h3, c) := ClassesTriviaGame.construct 3%nat None h2 in
  (h3, (a, b, c)).

(** A channel with a game already registered, and a second game about
    to be started in it. *)
Definition busyChannel : ClassesTriviaGame.Channel :=
  ClassesTriviaGame.mkChannel "channel-1" true.

Definition busyWorld : ClassesTriviaGame.World :=
  ClassesTriviaGame.mkWorld ClassesTriviaGame.initialHeap
    {[ "channel-1" := 1%nat ]} [] Pending.

Definition secondGame : ClassesTriviaGame.Game :=
  ClassesTriviaGame.mkGame 2%nat ClassesTriviaGame.defaultsLoc.

Definition busyEnv : ClassesTriviaGame.StartEnv :=
  ClassesTriviaGame.mkStartEnv (Some "guild-1") "channel-1"
    (inr (ClassesTriviaGame.mkGuild "guild-1"))
    (inr (Some busyChannel)) None.

(** A validator that lets every options object pass. *)
Definition acceptAll {A} (_ : A) : option TriviaError := None.

(** A validator that throws on a [maxPlayerCount] below 1. *)
Definition legacyNeedsOnePlayer (o : ClassesTriviaGame.TriviaGameOptionsStrict)
    : option TriviaError :=
  if bool_decide (ClassesTriviaGame.maxPlayerCount o < 1)%Z
  then Some (TypeError "maxPlayerCount must be at least 1")
  else None.

Definition needsOnePlayer (o : TriviaGame.TriviaGameOptionsStrict)
    : option TriviaError :=
  if bool_decide (TriviaGame.maxPlayerCount o < 1)%Z
  then Some (TypeError "maxPlayerCount must be at least 1")
  else None.

(** The caller's object [{ maxPlayerCount: 0 }], and the world once a game
    was constructed with it. *)
Definition legacyOnlyMax0 : ClassesTriviaGame.TriviaGameOptions :=
  ClassesTriviaGame.mkOptions None (Some 0) None None None None None None None.

Definition legacyZeroMaxWorld : ClassesTriviaGame.World :=
  ClassesTriviaGame.mkWorld
    (fst (ClassesTriviaGame.construct 2%nat (Some legacyOnlyMax0)
            ClassesTriviaGame.initialHeap))
    {[ "channel-9" := 7%nat ]} [] Pending.

Definition zeroMax : TriviaGame.TriviaGameOptionsStrict :=
  TriviaGame.assignFields TriviaGame.defaults
    (TriviaGame.mkOptions None (Some 0) None None None None None None).

Definition gameOne : TriviaGame.Game :=
  TriviaGame.mkGame 1%nat "channel-1" TriviaGame.defaultsLoc.

Definition quietStart : TriviaGame.StartEnv :=
  TriviaGame.mkStartEnv None None.

(** A registry holding game [1] in ["channel-1"] and game [7] in
    ["channel-9"]. *)
Definition twoGames : gmap string GameRef :=
  {[ "channel-1" := 1%nat; "channel-9" := 7%nat ]}.

Definition alice : TriviaGame.GuildMember :=
  TriviaGame.mkMember "100" "Alice".

Definition bob : TriviaGame.GuildMember :=
  TriviaGame.mkMember "200" "Bob".

(** A press of the Join button (custom id ["1"]) by a user whose member
    object the guild yields. *)
Definition joinPress (m : TriviaGame.GuildMember)
    : TriviaGame.MessageComponentInteraction :=
  TriviaGame.mkPress (TriviaGame.memberId m) (TriviaGame.memberDisplayName m)
    (Some 1%nat) false (Some m).

(** The state of game [1] once [start] went through with [opts] as the
    game's options, in a registry that already holds game [7]. *)
Definition queueOpenWith (opts : TriviaGame.TriviaGameOptionsStrict)
    : TriviaGame.State :=
  TriviaGame.start acceptAll acceptAll opts quietStart gameOne
    (TriviaGame.initialState {[ "channel-9" := 7%nat ]}).

Definition queueOpen : TriviaGame.State := queueOpenWith TriviaGame.defaults.

(** A two-answer question whose correct answer is ["Paris"]. *)
Definition capital : TriviaGame.TriviaQuestion :=
  TriviaGame.mkQuestion "Capital of France?" TriviaGame.multiple
    ["Paris"; "Rome"]
    (fun a => bool_decide (a = Some "Paris")).

(** A press, by a member, of the answer button whose custom id denotes
    [index]. *)
Definition answerPress (m : TriviaGame.GuildMember) (index : nat)
    : TriviaGame.MessageComponentInteraction :=
  TriviaGame.mkPress (TriviaGame.memberId m) (TriviaGame.memberDisplayName m)
    (Some index) false (Some m).

(** Game [1] with Alice and Bob queued. *)
Definition twoQueued : TriviaGame.State :=
  TriviaGame.queueCollects TriviaGame.defaults
    [joinPress alice; joinPress bob] queueOpen.

(** The queue collector ended after [n] presses were collected; the queue
    message can be deleted, one question will be fetched and nobody
    presses during it. *)
Definition endedAfter (n : Z) : TriviaGame.QueueEndEnv :=
  TriviaGame.mkQueueEndEnv true (InteractionCollector.mkCounts n n n)
    [capital] [[]].

Definition endedSilently : TriviaGame.QueueEndEnv := endedAfter 0.


(** Room for one player only. *)
Definition oneSeat : TriviaGame.TriviaGameOptionsStrict :=
  TriviaGame.assignFields TriviaGame.defaults
    (TriviaGame.mkOptions None (Some 1) None None None None None None).

(** Alice and Bob press Join before either handler got past its first
    [await]; the two handlers then advance in turns. *)
Definition overlappingJoins : list TriviaGame.Turn :=
  [TriviaGame.Deliver (joinPress alice); TriviaGame.Deliver (joinPress bob);
   TriviaGame.Resume 0; TriviaGame.Resume 1;
   TriviaGame.Resume 0; TriviaGame.Resume 1;
   TriviaGame.Resume 0; TriviaGame.Resume 1].

(** An interaction from outside a guild. *)
Definition noGuildEnv : ClassesTriviaGame.StartEnv :=
  ClassesTriviaGame.mkStartEnv None "channel-1"
    (inr (ClassesTriviaGame.mkGuild "guild-1"))
    (inr (Some busyChannel)) None.

(** The channel fetch yields a voice channel. *)
Definition voiceEnv : ClassesTriviaGame.StartEnv :=
  ClassesTriviaGame.mkStartEnv (Some "guild-1") "channel-2"
    (inr (ClassesTriviaGame.mkGuild "guild-1"))
    (inr (Some (ClassesTriviaGame.mkChannel "channel-2" false))) None.

(** The guild fetch is rejected. *)
Definition unknownGuildEnv : ClassesTriviaGame.StartEnv :=
  ClassesTriviaGame.mkStartEnv (Some "guild-1") "channel-1"
    (inl (ThrownBy "guilds.fetch" "Unknown Guild"))
    (inr (Some busyChannel)) None.

(** A free text channel; the collector function goes through, or throws. *)
Definition freeChannel : ClassesTriviaGame.Channel :=
  ClassesTriviaGame.mkChannel "channel-2" true.

Definition freeEnv : ClassesTriviaGame.StartEnv :=
  ClassesTriviaGame.mkStartEnv (Some "guild-1") "channel-2"
    (inr (ClassesTriviaGame.mkGuild "guild-1"))
    (inr (Some freeChannel)) None.

Definition brokenCollectorEnv : ClassesTriviaGame.StartEnv :=
  ClassesTriviaGame.mkStartEnv (Some "guild-1") "channel-2"
    (inr (ClassesTriviaGame.mkGuild "guild-1"))
    (inr (Some freeChannel))
    (Some (ThrownBy "channel.send" "Missing Permissions")).

(** The SDK rejects the reply to the command. *)
Definition replyFails : TriviaGame.StartEnv :=
  TriviaGame.mkStartEnv (Some (ThrownBy "interaction.reply" "Unknown interaction"))
    None.

(** Four games constructed in a row. *)
Definition fourRequests : list (string * option TriviaGame.TriviaGameOptions) :=
  [("channel-a", Some onlyMax5); ("channel-b", None);
   ("channel-c", Some onlyMin2); ("channel-d", None)].

(** A press by a user whose member object cannot be fetched. *)
Definition ghostPress : TriviaGame.MessageComponentInteraction :=
  TriviaGame.mkPress "300" "Ghost" (Some 1%nat) false None.

Definition carol : TriviaGame.GuildMember :=
  TriviaGame.mkMember "400" "Carol".

(** Room for two players. *)
Definition twoSeats : TriviaGame.TriviaGameOptionsStrict :=
  TriviaGame.assignFields TriviaGame.defaults
    (TriviaGame.mkOptions None (Some 2) None None None None None None).

(** A press on the wrong answer, and a press by somebody who never
    joined. *)
Definition wrongPress : TriviaGame.MessageComponentInteraction :=
  answerPress bob 1.

Definition outsiderPress : TriviaGame.MessageComponentInteraction :=
  answerPress carol 0.

(** Two rounds on the same question: Alice is right twice in the first and
    once in the second, Bob is wrong, then right. *)
Definition twoRounds : list (list TriviaGame.MessageComponentInteraction) :=
  [[answerPress alice 0; wrongPress; answerPress alice 0; outsiderPress];
   [answerPress bob 0; answerPress alice 0]].

(** The queue ended with enough players; two questions are fetched. *)
Definition enoughPlayers : TriviaGame.QueueEndEnv :=
  TriviaGame.mkQueueEndEnv false (InteractionCollector.mkCounts 2 2 2)
    [capital; capital] twoRounds.

(** Answer buttons as they are handed to the row functions. *)
Definition answerButtons : list MessageActionRows.ButtonBuilder :=
  [MessageActionRows.mkButtonBuilder None (Some "Paris")
     (Some MessageActionRows.Primary);
   MessageActionRows.mkButtonBuilder None (Some "Rome")
     (Some MessageActionRows.Primary);
   MessageActionRows.mkButtonBuilder None (Some "Oslo")
     (Some MessageActionRows.Primary)].

(** A second game object for ["channel-1"]. *)
Definition gameTwo : TriviaGame.Game :=
  TriviaGame.mkGame 2%nat "channel-1" TriviaGame.defaultsLoc.

End Samples.

(** * Properties *)

(** ** Option merging in the constructors *)
Module OptionMerging.

Import TriviaGame.

Lemma readOptions_initial (this : GameRef) (channel : string) :
  let '(h, g) := construct this channel None initialHeap in
  readOptions h g = defaults.
Proof. reflexivity. Qed.

(** The first construction after the class is loaded merges the caller's
    keys over the literal defaults. *)
Lemma construct_first (this : GameRef) (channel : string)
    (o : TriviaGameOptions) :
  let '(h, g) := construct this channel (Some o) initialHeap in
  readOptions h g = assignFields defaults o.
Proof.
  unfold construct, objectAssign, readOptions, initialHeap. simpl.
  unfold defaultsLoc. rewrite alter_singleton_eq.
  by rewrite lookup_total_singleton_eq.
Qed.

(** Every game holds the same reference: the options of any two games
    are one object. *)
Lemma construct_aliases (this : GameRef) (channel : string)
    (o : option TriviaGameOptions) (h : gmap Loc TriviaGameOptionsStrict) :
  options (snd (construct this channel o h)) = defaultsLoc.
Proof. by destruct o. Qed.

(** A construction with options rewrites the object behind
    [TriviaGame.defaults] itself. *)
Lemma construct_writes_defaults (this : GameRef) (channel : string)
    (o : TriviaGameOptions) (h : gmap Loc TriviaGameOptionsStrict)
    (d : TriviaGameOptionsStrict) :
  h !! defaultsLoc = Some d ->
  fst (construct this channel (Some o) h) !! defaultsLoc
  = Some (assignFields d o).
Proof.
  intros Hd. unfold construct, objectAssign. simpl.
  rewrite lookup_alter_eq. by rewrite Hd.
Qed.

(** C2 (as the code behaves).  After a game was built with
    [{ maxPlayerCount: 5 }], a game built with [{ minPlayerCount: 2 }]
    and a game built with no options both read [maxPlayerCount = 5]
    where the literal default is [50], the option-less game also reads
    [minPlayerCount = 2] where the literal default is [1], and the first
    game, which never supplied [minPlayerCount], now reads [2] as well.
    Both revisions of the constructor behave this way. *)
Theorem defaults_leak_between_games :
  (let '(h, (a, b, c)) := Samples.threeGames in
   minPlayerCount_opt Samples.onlyMax5 = None
   /\ maxPlayerCount_opt Samples.onlyMin2 = None
   /\ maxPlayerCount defaults = 50
   /\ minPlayerCount defaults = 1
   /\ maxPlayerCount (readOptions h b) = 5
   /\ maxPlayerCount (readOptions h c) = 5
   /\ minPlayerCount (readOptions h c) = 2
   /\ minPlayerCount (readOptions h a) = 2)
  /\
  (let '(h, (a, b, c)) := Samples.legacyThreeGames in
   ClassesTriviaGame.maxPlayerCount ClassesTriviaGame.defaults = 50
   /\ ClassesTriviaGame.minPlayerCount ClassesTriviaGame.defaults = 1
   /\ ClassesTriviaGame.maxPlayerCount (ClassesTriviaGame.readOptions h b) = 5
   /\ ClassesTriviaGame.maxPlayerCount (ClassesTriviaGame.readOptions h c) = 5
   /\ ClassesTriviaGame.minPlayerCount (ClassesTriviaGame.readOptions h c) = 2
   /\ ClassesTriviaGame.minPlayerCount (ClassesTriviaGame.readOptions h a) = 2).
Proof. vm_compute. repeat split. Qed.

End OptionMerging.

(** ** [start] in [src/Classes/TriviaGame.ts] *)
Module LegacyStart.

Import ClassesTriviaGame.

Section Facts.

Variable validate : TriviaGameOptionsStrict -> option TriviaError.

(** A throwing validator ends [start] at its first statement. *)
Lemma legacy_start_invalid (env : StartEnv) (this : Game) (w : World)
    (e : TriviaError) :
  validate (readOptions (heap w) this) = Some e ->
  start validate env this w
  = mkWorld (heap w) (games w) (log w) (reject e (promise w)).
Proof.
  intros Hv. unfold start, startBody, bind, gets, orThrow. simpl.
  by rewrite Hv.
Qed.

(** The whole of [start] once the validator, the guild id and both
    fetches went through and the channel is a text channel. *)
Lemma start_reaches_registry (env : StartEnv) (this : Game) (w : World)
    (guild : Guild) (channel : Channel) :
  validate (readOptions (heap w) this) = None ->
  truthy (guildId env) = true ->
  guildsFetch env = inr guild ->
  channelsFetch env = inr (Some channel) ->
  isText channel = true ->
  start validate env this w
  = mkWorld (heap w) (<[id channel := self this]> (games w))
      (log w ++ [GuildsFetch (default "" (guildId env));
                 ChannelsFetch (channelId env);
                 InteractionReply
                   (startMessage (gameMessages (readOptions (heap w) this)))
                   true;
                 StartComponentCollector (self this) guild channel])
      (let p :=
         if bool_decide (is_Some (games w !! id channel))
         then reject gameInProgress (promise w)
         else promise w in
       match collectorThrows env with
       | Some e => reject e p
       | None => p
       end).
Proof.
  intros Hv Hg Hgf Hcf Ht.
  unfold start, startBody, bind, gets, orThrow, throwIf, await, when,
    emit, gamesSet, callReject, modify, ret. simpl.
  rewrite Hv, Hg, Hgf, Hcf, Ht. simpl.
  destruct (bool_decide (is_Some (games w !! id channel))),
    (collectorThrows env); simpl; by rewrite <- !app_assoc.
Qed.

(** C1 (as the code behaves).  When the channel already has a game and
    [start] gets as far as the registry test, the promise is rejected
    with [GAME_IN_PROGRESS], and then the registry entry of the channel
    is overwritten with the new game, the start message is sent and the
    queue collector is started all the same. *)
Theorem start_in_progress_replaces_game (env : StartEnv) (this : Game)
    (w : World) (guild : Guild) (channel : Channel) (old : GameRef) :
  validate (readOptions (heap w) this) = None ->
  truthy (guildId env) = true ->
  guildsFetch env = inr guild ->
  channelsFetch env = inr (Some channel) ->
  isText channel = true ->
  games w !! id channel = Some old ->
  promise w = Pending ->
  let w' := start validate env this w in
  promise w' = Rejected gameInProgress
  /\ games w' !! id channel = Some (self this)
  /\ log w'
     = log w ++ [GuildsFetch (default "" (guildId env));
                 ChannelsFetch (channelId env);
                 InteractionReply
                   (startMessage (gameMessages (readOptions (heap w) this)))
                   true;
                 StartComponentCollector (self this) guild channel].
Proof.
  intros Hv Hg Hgf Hcf Ht Hold Hp w'. subst w'.
  rewrite (start_reaches_registry env this w guild channel) by done.
  simpl. rewrite Hold, Hp, lookup_insert_eq.
  rewrite bool_decide_eq_true_2 by eauto.
  split; [by destruct (collectorThrows env) | done].
Qed.

End Facts.

(** The second game started in ["channel-1"], which game [1] holds: the
    promise is rejected, yet the channel now maps to game [2]. *)
Lemma start_in_progress_replaces_game_witness :
  let w' := start Samples.acceptAll Samples.busyEnv Samples.secondGame
              Samples.busyWorld in
  games Samples.busyWorld !! "channel-1" = Some 1%nat
  /\ promise w' = Rejected gameInProgress
  /\ games w' !! "channel-1" = Some 2%nat.
Proof.
  split; [reflexivity |].
  destruct (start_in_progress_replaces_game Samples.acceptAll Samples.busyEnv
              Samples.secondGame Samples.busyWorld
              (mkGuild "guild-1") Samples.busyChannel 1%nat)
    as (Hp & Hg & _); try reflexivity.
  split; [exact Hp | exact Hg].
Defined.

End LegacyStart.

(** ** [start] and [end] in the collector revision *)
Module StartEnd.

Import TriviaGame.

Section Facts.

Variable validateDiscordStructures : Game -> option TriviaError.
Variable validateGameOptions : TriviaGameOptionsStrict -> option TriviaError.

(** When the options validator throws, [start] rejects with what was
    thrown first and leaves everything else as it was. *)
Lemma start_invalid (opts : TriviaGameOptionsStrict) (env : StartEnv)
    (this : Game) (st : State) (e : TriviaError) :
  validateGameOptions opts = Some e ->
  start validateDiscordStructures validateGameOptions opts env this st
  = setPromise
      (reject (default e (validateDiscordStructures this)) (promise st)) st.
Proof.
  intros Hv. unfold start, startBody, bind, orThrow, throw, ret.
  destruct (validateDiscordStructures this); simpl; [done |].
  by rewrite Hv.
Qed.

End Facts.

(** C5.  In both revisions, when the options validator throws on the
    game's options, [start] rejects with a thrown error and nothing else
    happened: the manager's registry is the one from before the call and
    no reply, queue message or any other call went out. *)
Theorem start_rejects_invalid_options
    (legacyValidate :
       ClassesTriviaGame.TriviaGameOptionsStrict -> option TriviaError)
    (legacyEnv : ClassesTriviaGame.StartEnv)
    (legacyGame : ClassesTriviaGame.Game) (w : ClassesTriviaGame.World)
    (validateDiscordStructures : Game -> option TriviaError)
    (validateGameOptions : TriviaGameOptionsStrict -> option TriviaError)
    (opts : TriviaGameOptionsStrict) (env : StartEnv) (this : Game)
    (st : State) (e1 e2 : TriviaError) :
  legacyValidate
    (ClassesTriviaGame.readOptions (ClassesTriviaGame.heap w) legacyGame)
  = Some e1 ->
  ClassesTriviaGame.promise w = Pending ->
  validateGameOptions opts = Some e2 ->
  promise st = Pending ->
  (let w' := ClassesTriviaGame.start legacyValidate legacyEnv legacyGame w in
   ClassesTriviaGame.promise w' = Rejected e1
   /\ ClassesTriviaGame.games w' = ClassesTriviaGame.games w
   /\ ClassesTriviaGame.log w' = ClassesTriviaGame.log w
   /\ ClassesTriviaGame.heap w' = ClassesTriviaGame.heap w)
  /\
  (let st' :=
     start validateDiscordStructures validateGameOptions opts env this st in
   (exists e, promise st' = Rejected e)
   /\ games st' = games st
   /\ log st' = log st
   /\ players st' = players st
   /\ questions st' = questions st
   /\ queueStopped st' = queueStopped st).
Proof.
  intros H1 Hp1 H2 Hp2. split.
  - rewrite (LegacyStart.legacy_start_invalid legacyValidate legacyEnv legacyGame w e1)
      by done.
    simpl. by rewrite Hp1.
  - rewrite (start_invalid validateDiscordStructures validateGameOptions
               opts env this st e2) by done.
    simpl. rewrite Hp2. simpl. eauto 10.
Qed.

Lemma start_rejects_invalid_options_witness :
  ClassesTriviaGame.games
    (ClassesTriviaGame.start Samples.legacyNeedsOnePlayer Samples.busyEnv
       Samples.secondGame Samples.legacyZeroMaxWorld)
  = {[ "channel-9" := 7%nat ]}
  /\ log (start Samples.acceptAll Samples.needsOnePlayer Samples.zeroMax
            Samples.quietStart Samples.gameOne
            (initialState Samples.twoGames))
     = [].
Proof.
  destruct (start_rejects_invalid_options
              Samples.legacyNeedsOnePlayer Samples.busyEnv Samples.secondGame
              Samples.legacyZeroMaxWorld
              Samples.acceptAll Samples.needsOnePlayer Samples.zeroMax
              Samples.quietStart Samples.gameOne
              (initialState Samples.twoGames)
              (TypeError "maxPlayerCount must be at least 1")
              (TypeError "maxPlayerCount must be at least 1"))
    as ((_ & Hg & _) & (_ & _ & Hl & _)); try reflexivity.
  split; [exact Hg | exact Hl].
Defined.

(** C6.  [end()] removes the registry entry of this game's channel and
    leaves the entry of every other channel, and the rest of the state,
    as it was. *)
Theorem end_deletes_only_own_record (this : Game) (st : State)
    (other : string) :
  other ≠ channelId this ->
  games (end_ this st) !! channelId this = None
  /\ games (end_ this st) !! other = games st !! other
  /\ players (end_ this st) = players st
  /\ log (end_ this st) = log st.
Proof.
  intros Hne. unfold end_. simpl.
  rewrite lookup_delete_eq, lookup_delete_ne by done. done.
Qed.

Lemma end_deletes_only_own_record_witness :
  games (end_ Samples.gameOne (initialState Samples.twoGames)) !! "channel-1"
  = None
  /\ games (end_ Samples.gameOne (initialState Samples.twoGames)) !! "channel-9"
     = Some 7%nat.
Proof.
  assert (Hne : "channel-9" ≠ channelId Samples.gameOne) by discriminate.
  destruct (end_deletes_only_own_record Samples.gameOne
              (initialState Samples.twoGames) "channel-9" Hne)
    as (H1 & H2 & _).
  split; [exact H1 | etrans; [exact H2 | reflexivity]].
Defined.

End StartEnd.

(** ** The queue collector *)
Module Queue.

Import TriviaGame.

Lemma log_reply (int : MessageComponentInteraction) (content : string)
    (ephemeral : bool) (st : State) :
  log (reply int content ephemeral st)
  = log st ++ [if replied int
               then ComponentFollowUp (userId int) content ephemeral
               else ComponentReply (userId int) content ephemeral].
Proof. unfold reply. by destruct (replied int). Qed.

Lemma players_reply (int : MessageComponentInteraction) (content : string)
    (ephemeral : bool) (st : State) :
  players (reply int content ephemeral st) = players st.
Proof. unfold reply. by destruct (replied int). Qed.

Lemma queueStopped_reply (int : MessageComponentInteraction)
    (content : string) (ephemeral : bool) (st : State) :
  queueStopped (reply int content ephemeral st) = queueStopped st.
Proof. unfold reply. by destruct (replied int). Qed.

Lemma games_reply (int : MessageComponentInteraction) (content : string)
    (ephemeral : bool) (st : State) :
  games (reply int content ephemeral st) = games st.
Proof. unfold reply. by destruct (replied int). Qed.

(** C8.  A Join press by a user whose id is already a key of [players]
    leaves the collection as it is, stops nothing, and makes exactly one
    call: the ephemeral "already in the queue" answer to that press. *)
Theorem join_again_changes_nothing (opts : TriviaGameOptionsStrict)
    (int : MessageComponentInteraction) (st : State) :
  is_Some (players st !! userId int) ->
  let st' := queueCollect opts int st in
  players st' = players st
  /\ size (players st') = size (players st)
  /\ queueStopped st' = queueStopped st
  /\ games st' = games st
  /\ log st'
     = log st ++ [if replied int
                  then ComponentFollowUp (userId int)
                         "**You are already in the queue**" true
                  else ComponentReply (userId int)
                         "**You are already in the queue**" true].
Proof.
  intros Hin st'. subst st'. unfold queueCollect.
  rewrite bool_decide_eq_true_2 by done.
  rewrite players_reply, queueStopped_reply, games_reply, log_reply.
  done.
Qed.

Lemma join_again_changes_nothing_witness :
  let once := queueCollect defaults (Samples.joinPress Samples.alice)
                Samples.queueOpen in
  let twice := queueCollect defaults (Samples.joinPress Samples.alice) once in
  size (players once) = 1%nat
  /\ players twice = players once
  /\ log twice
     = log once ++ [ComponentReply "100" "**You are already in the queue**"
                      true].
Proof.
  split; [reflexivity |].
  destruct (join_again_changes_nothing defaults
              (Samples.joinPress Samples.alice)
              (queueCollect defaults (Samples.joinPress Samples.alice)
                 Samples.queueOpen))
    as (Hp & _ & _ & _ & Hl).
  - vm_compute. eauto.
  - split; [exact Hp | exact Hl].
Defined.

(** A Join press by a user who is not queued and whose member object was
    fetched stores one record under the member's id. *)
Lemma queueCollect_joins (opts : TriviaGameOptionsStrict)
    (int : MessageComponentInteraction) (member : GuildMember) (st : State) :
  players st !! userId int = None ->
  fetched int = Some member ->
  players (queueCollect opts int st)
  = <[memberId member :=
        mkPlayer (memberId member) (memberDisplayName member) 0 false false
          (mkPosition 0 0)]> (players st).
Proof.
  intros Hnew Hf. unfold queueCollect.
  rewrite bool_decide_eq_false_2 by (rewrite Hnew; by intros [? ?]).
  rewrite Hf. simpl. rewrite players_reply.
  by case_bool_decide.
Qed.

(** Whatever the press, the collection afterwards is the old one or the
    old one with one fresh record stored under its own id. *)
Lemma queueCollect_players (opts : TriviaGameOptionsStrict)
    (int : MessageComponentInteraction) (st : State) :
  players (queueCollect opts int st) = players st
  \/ exists member,
       players st !! userId int = None
       /\ fetched int = Some member
       /\ players (queueCollect opts int st)
          = <[memberId member := initialPlayer member]> (players st).
Proof.
  destruct (players st !! userId int) as [p |] eqn:Hl.
  - left. apply join_again_changes_nothing. rewrite Hl. eauto.
  - destruct (fetched int) as [member |] eqn:Hf.
    + right. exists member. split; [done |]. split; [done |].
      by apply queueCollect_joins.
    + left. unfold queueCollect.
      rewrite bool_decide_eq_false_2 by (rewrite Hl; by intros [? ?]).
      rewrite Hf. apply players_reply.
Qed.

Lemma queueCollects_freshlyQueued (opts : TriviaGameOptionsStrict)
    (presses : list MessageComponentInteraction) (st : State) :
  (forall k p, players st !! k = Some p -> freshlyQueued k p) ->
  forall k p,
    players (queueCollects opts presses st) !! k = Some p ->
    freshlyQueued k p.
Proof.
  revert st. induction presses as [| int rest IH]; intros st Hst; [done |].
  simpl. destruct (queueStopped st); [done |].
  apply IH. intros k p.
  destruct (queueCollect_players opts int st) as [-> | (m & _ & _ & ->)];
    [apply Hst |].
  rewrite lookup_insert. case_decide as Hk.
  - intros [= <-]. subst k. by repeat split.
  - apply Hst.
Qed.

(** C10.  Whatever presses the queue collector handles on a newly
    constructed game, every record in [players] is stored under its own
    id with [points = 0], [hasAnswered = false], [isCorrect = false] and
    both leaderboard positions [0]. *)
Theorem queued_players_start_fresh (opts : TriviaGameOptionsStrict)
    (presses : list MessageComponentInteraction)
    (registry : gmap string GameRef) (key : string) (p : TriviaPlayer) :
  players (queueCollects opts presses (initialState registry)) !! key = Some p ->
  id p = key
  /\ points p = 0
  /\ hasAnswered p = false
  /\ isCorrect p = false
  /\ leaderboardPosition p = mkPosition 0 0.
Proof.
  intros Hl.
  destruct (queueCollects_freshlyQueued opts presses (initialState registry))
    with (k := key) (p := p) as (H1 & H2 & H3 & H4 & H5 & H6); [| done |].
  - intros k q. simpl. by rewrite lookup_empty.
  - repeat split; try done.
    destruct (leaderboardPosition p); simpl in *; congruence.
Qed.

Lemma queued_players_start_fresh_witness :
  players (queueCollects defaults
             [Samples.joinPress Samples.alice; Samples.joinPress Samples.bob]
             (initialState ∅)) !! "200"
  = Some (mkPlayer "200" "Bob" 0 false false (mkPosition 0 0))
  /\ points (mkPlayer "200" "Bob" 0 false false (mkPosition 0 0)) = 0.
Proof.
  assert (Hl : players (queueCollects defaults
                          [Samples.joinPress Samples.alice;
                           Samples.joinPress Samples.bob]
                          (initialState ∅)) !! "200"
               = Some (mkPlayer "200" "Bob" 0 false false (mkPosition 0 0)))
    by reflexivity.
  split; [exact Hl |].
  exact (proj1 (proj2 (queued_players_start_fresh defaults
                         [Samples.joinPress Samples.alice;
                          Samples.joinPress Samples.bob]
                         ∅ "200" _ Hl))).
Defined.

End Queue.

(** ** The question collector and the game loop *)
Module Rounds.

Import TriviaGame.




Import Lifecycle.

(** One press at the question collector tallies as [tallyPress] does and
    sends at most its "locked in" notice. *)
Lemma questionPress_tallies (q : TriviaQuestion) (st : State)
    (i : MessageComponentInteraction) :
  players (questionPress q st i) = tallyPress q (players st) i
  /\ log (questionPress q st i) = log st ++ notices (players st) [i]
  /\ games (questionPress q st i) = games st.
Proof.
  unfold questionPress, questionFilter, questionCollect, tallyPress, notices.
  simpl. destruct (players st !! userId i) as [p |] eqn:Hp.
  - rewrite bool_decide_eq_true_2 by eauto.
    destruct (checkAnswer q (pressedAnswer q i)), (fetched i); simpl;
      by rewrite ?app_nil_r.
  - rewrite bool_decide_eq_false_2 by (by intros [? ?]).
    by rewrite app_nil_r.
Qed.

Lemma tallyPress_keys (q : TriviaQuestion)
    (standings : gmap string TriviaPlayer)
    (i : MessageComponentInteraction) (k : string) :
  is_Some (tallyPress q standings i !! k) <-> is_Some (standings !! k).
Proof.
  unfold tallyPress. destruct (standings !! userId i) as [p |] eqn:Hp; [| done].
  destruct (checkAnswer q (pressedAnswer q i)); [| done].
  rewrite lookup_insert. case_decide as Hk; [| done].
  subst k. rewrite Hp. split; eauto.
Qed.

Lemma notices_keys (s1 s2 : gmap string TriviaPlayer)
    (presses : list MessageComponentInteraction) :
  (forall k, is_Some (s1 !! k) <-> is_Some (s2 !! k)) ->
  notices s1 presses = notices s2 presses.
Proof.
  intros Hk. unfold notices. induction presses as [| i rest IH]; [done |].
  simpl. rewrite IH. f_equal.
  specialize (Hk (userId i)).
  destruct (s1 !! userId i), (s2 !! userId i); try done.
  - destruct Hk as [Hk _]. destruct Hk as [? ?]; [eauto | done].
  - destruct Hk as [_ Hk]. destruct Hk as [? ?]; [eauto | done].
Qed.

Lemma collected_presses (q : TriviaQuestion)
    (presses : list MessageComponentInteraction) (st : State) :
  players (fold_left (questionPress q) presses st)
  = tally q presses (players st)
  /\ log (fold_left (questionPress q) presses st)
     = log st ++ notices (players st) presses
  /\ games (fold_left (questionPress q) presses st) = games st.
Proof.
  revert st. induction presses as [| i rest IH]; intros st.
  - simpl. by rewrite app_nil_r.
  - simpl. destruct (IH (questionPress q st i)) as (Hp & Hl & Hg).
    destruct (questionPress_tallies q st i) as (Hp1 & Hl1 & Hg1).
    rewrite Hp, Hl, Hg, Hp1, Hl1, Hg1. unfold tally. simpl.
    split; [done |]. split; [| done].
    rewrite <- app_assoc. f_equal.
    change (notices (players st) [i] ++ notices (tallyPress q (players st) i) rest
            = notices (players st) ([i] ++ rest)).
    unfold notices at 3. rewrite flat_map_app. f_equal.
    apply notices_keys. intros k. apply tallyPress_keys.
Qed.

Lemma emitQuestion_round (opts : TriviaGameOptionsStrict) (q : TriviaQuestion)
    (presses : list MessageComponentInteraction) (st : State) :
  let st' := emitQuestion opts q presses (emit (Wait 5000) (emit preparing st)) in
  players st' = tally q presses (players st)
  /\ log st' = log st ++ round opts q presses (players st)
  /\ games st' = games st.
Proof.
  unfold emitQuestion, questionEnd. simpl.
  match goal with
  | |- context [fold_left (questionPress q) presses ?s] =>
      destruct (collected_presses q presses s) as (Hp & Hl & Hg)
  end.
  rewrite Hp, Hl, Hg. simpl. split; [done |]. split; [| done].
  unfold round. rewrite <- !app_assoc. simpl. done.
Qed.

Lemma sentQuestions_app (a b : list Effect) :
  sentQuestions (a ++ b) = sentQuestions a ++ sentQuestions b.
Proof. apply flat_map_app. Qed.

Lemma sentQuestions_notices (standings : gmap string TriviaPlayer)
    (presses : list MessageComponentInteraction) :
  sentQuestions (notices standings presses) = [].
Proof.
  unfold notices. induction presses as [| i rest IH]; [done |].
  simpl. rewrite sentQuestions_app, IH, app_nil_r.
  by destruct (standings !! userId i), (fetched i).
Qed.

Lemma sentQuestions_round (opts : TriviaGameOptionsStrict) (q : TriviaQuestion)
    (presses : list MessageComponentInteraction)
    (standings : gmap string TriviaPlayer) :
  sentQuestions (round opts q presses standings) = [q].
Proof.
  unfold round. rewrite !sentQuestions_app, sentQuestions_notices. done.
Qed.

(** With every press handled to its end before the round's collector
    ends, the calls [beginGameLoop] makes are the rounds of the fetched
    questions, one after the other in fetch order: per question the
    announcement and pause, the question message with its button row, a
    collector created for [timePerQuestion], the notices of the collected
    presses, then the leaderboard built from the standings at that moment,
    and a pause before the next round.  The question messages sent are
    exactly the fetched questions, in order. *)
Lemma rounds_follow_lifecycle (opts : TriviaGameOptionsStrict)
    (qs : list TriviaQuestion)
    (presses : list (list MessageComponentInteraction)) (st : State) :
  let st' := beginGameLoop opts qs presses st in
  log st' = log st ++ rounds opts qs presses (players st)
  /\ sentQuestions (rounds opts qs presses (players st)) = qs
  /\ players st' = finalStandings qs presses (players st)
  /\ games st' = games st.
Proof.
  revert presses st. induction qs as [| q rest IH]; intros presses st.
  - simpl. by rewrite app_nil_r.
  - cbn [beginGameLoop rounds finalStandings].
    destruct (emitQuestion_round opts q (hd [] presses) st) as (Hp & Hl & Hg).
    destruct (IH (tail presses)
                (emitQuestion opts q (hd [] presses)
                   (emit (Wait 5000) (emit preparing st))))
      as (IHl & IHq & IHp & IHg).
    rewrite IHl, IHp, IHg, Hp, Hl, Hg.
    split; [by rewrite <- app_assoc |].
    split; [| done].
    rewrite sentQuestions_app, sentQuestions_round.
    cbn [app]. f_equal. rewrite <- Hp. apply IHq.
Qed.

Lemma tallyPress_size (q : TriviaQuestion)
    (standings : gmap string TriviaPlayer) (i : MessageComponentInteraction) :
  size (tallyPress q standings i) = size standings.
Proof.
  unfold tallyPress. destruct (standings !! userId i) as [p |] eqn:Hp; [| done].
  destruct (checkAnswer q (pressedAnswer q i)); [| done].
  apply map_size_insert_Some. eauto.
Qed.

Lemma tally_size (q : TriviaQuestion)
    (presses : list MessageComponentInteraction)
    (standings : gmap string TriviaPlayer) :
  size (tally q presses standings) = size standings.
Proof.
  unfold tally. revert standings.
  induction presses as [| i rest IH]; intros standings; [done |].
  simpl. by rewrite IH, tallyPress_size.
Qed.

(** The rounds change points, never the number of players. *)
Lemma beginGameLoop_size (opts : TriviaGameOptionsStrict)
    (qs : list TriviaQuestion)
    (presses : list (list MessageComponentInteraction)) (st : State) :
  size (players (beginGameLoop opts qs presses st)) = size (players st).
Proof.
  revert presses st. induction qs as [| q rest IH]; intros presses st; [done |].
  cbn [beginGameLoop]. rewrite IH.
  destruct (emitQuestion_round opts q (hd [] presses) st) as (-> & _).
  apply tally_size.
Qed.

(** The rounds only add calls: what was sent stays sent. *)
Lemma beginGameLoop_log (opts : TriviaGameOptionsStrict)
    (qs : list TriviaQuestion)
    (presses : list (list MessageComponentInteraction)) (st : State) :
  exists calls, log (beginGameLoop opts qs presses st) = log st ++ calls.
Proof.
  revert presses st. induction qs as [| q rest IH]; intros presses st.
  - exists []. simpl. by rewrite app_nil_r.
  - cbn [beginGameLoop].
    destruct (IH (tail presses)
                (emitQuestion opts q (hd [] presses)
                   (emit (Wait 5000) (emit preparing st)))) as (calls & ->).
    destruct (emitQuestion_round opts q (hd [] presses) st) as (_ & -> & _).
    eexists. by rewrite <- app_assoc.
Qed.

End Rounds.

(** ** The end of the queue *)
Module QueueEnd.

Import TriviaGame.

Lemma started_emit (e : Effect) (st : State) :
  started (emit e st) = started st || isGameStart e.
Proof.
  unfold started. simpl. rewrite existsb_app. simpl.
  by rewrite orb_false_r.
Qed.

Lemma started_reply (int : MessageComponentInteraction) (content : string)
    (ephemeral : bool) (st : State) :
  started (reply int content ephemeral st) = started st.
Proof.
  unfold reply. destruct (replied int); rewrite started_emit; simpl;
    by rewrite orb_false_r.
Qed.

Lemma started_queueCollect (opts : TriviaGameOptionsStrict)
    (int : MessageComponentInteraction) (st : State) :
  started (queueCollect opts int st) = started st.
Proof.
  unfold queueCollect. case_bool_decide; [apply started_reply |].
  destruct (fetched int); [| apply started_reply].
  simpl. case_bool_decide; unfold collectorStop;
    rewrite ?started_emit; simpl; rewrite ?orb_false_r;
    unfold started; simpl; rewrite ?existsb_app; simpl;
    rewrite ?orb_false_r; apply started_reply.
Qed.

Lemma started_queueCollects (opts : TriviaGameOptionsStrict)
    (presses : list MessageComponentInteraction) (st : State) :
  started (queueCollects opts presses st) = started st.
Proof.
  revert st. induction presses as [| int rest IH]; intros st; [done |].
  simpl. destruct (queueStopped st); [done |].
  by rewrite IH, started_queueCollect.
Qed.

(** The collector of the queue is created with a [time] only: none of the
    limits [endReason] looks at is configured, so at every end of the
    queue, by the timer or by [stop], the getter yields [null]. *)
Lemma queue_has_no_end_reason (opts : TriviaGameOptionsStrict)
    (counted : InteractionCollector.Counts) :
  InteractionCollector.endReason (queueCollector opts counted) = None.
Proof. reflexivity. Qed.

(** Below the minimum, the handler takes its [else] branch. *)
Lemma queueEnd_fails (opts : TriviaGameOptionsStrict) (this : Game)
    (env : QueueEndEnv) (st : State) :
  Z.of_nat (size (players st)) < minPlayerCount opts ->
  queueEnd opts this env st
  = emit failedRequirements
      (end_ this (if deletable env then emit QueueMessageDelete st else st)).
Proof.
  intros Hlt. unfold queueEnd. rewrite queue_has_no_end_reason. simpl.
  rewrite bool_decide_eq_false_2; [done |].
  destruct (deletable env); simpl; lia.
Qed.

(** At or above the minimum, it initialises the game. *)
Lemma queueEnd_initializes (opts : TriviaGameOptionsStrict) (this : Game)
    (env : QueueEndEnv) (st : State) :
  minPlayerCount opts ≤ Z.of_nat (size (players st)) ->
  queueEnd opts this env st
  = initializeGame opts (fetchedQuestions env) (roundPresses env)
      (if deletable env then emit QueueMessageDelete st else st).
Proof.
  intros Hc. unfold queueEnd. rewrite queue_has_no_end_reason. simpl.
  rewrite bool_decide_eq_true_2; [done |].
  by destruct (deletable env).
Qed.

Lemma started_initializeGame (opts : TriviaGameOptionsStrict)
    (qs : list TriviaQuestion)
    (presses : list (list MessageComponentInteraction)) (st : State) :
  started (initializeGame opts qs presses st) = true.
Proof.
  unfold initializeGame, started.
  match goal with
  | |- context [beginGameLoop opts ?q presses ?s] =>
      destruct (Rounds.beginGameLoop_log opts q presses s) as (calls & ->)
  end.
  simpl. rewrite !existsb_app. simpl.
  by rewrite orb_true_r.
Qed.



Lemma queueCollect_withinCapacity (opts : TriviaGameOptionsStrict)
    (int : MessageComponentInteraction) (st : State) :
  queueStopped st = None ->
  withinCapacity opts st ->
  withinCapacity opts (queueCollect opts int st).
Proof.
  intros Hrun (Hle & Hiff). unfold withinCapacity.
  assert (Hlt : Z.of_nat (size (players st)) < maxPlayerCount opts).
  { destruct (decide (Z.of_nat (size (players st)) = maxPlayerCount opts))
      as [Heq | Hne]; [| lia].
    apply Hiff in Heq. rewrite Hrun in Heq. by destruct Heq. }
  unfold queueCollect. case_bool_decide as Hhas.
  { rewrite Queue.players_reply, Queue.queueStopped_reply. done. }
  destruct (fetched int) as [member |].
  2: { rewrite Queue.players_reply, Queue.queueStopped_reply. done. }
  pose proof (map_size_insert (memberId member) (initialPlayer member)
                (players st)) as Hsz.
  cbn zeta. case_bool_decide as Hfull; simpl in *;
    rewrite ?Queue.players_reply, ?Queue.queueStopped_reply, ?Hrun in *.
  - split; [lia |]. split; [done | eauto].
  - split.
    + destruct (players st !! memberId member); simpl in Hsz; lia.
    + split; [by intros [? ?] | done].
Qed.

Lemma queueCollects_withinCapacity (opts : TriviaGameOptionsStrict)
    (presses : list MessageComponentInteraction) (st : State) :
  withinCapacity opts st ->
  withinCapacity opts (queueCollects opts presses st).
Proof.
  revert st. induction presses as [| int rest IH]; intros st Hst; [done |].
  simpl. destruct (queueStopped st) eqn:Hrun; [done |].
  by apply IH, queueCollect_withinCapacity.
Qed.

(** With [maxPlayerCount = 0] the size test of the handler never holds:
    the first player makes the collection larger than the maximum and the
    collector keeps running. *)
Lemma zero_capacity_never_stops :
  let st := queueCollects Samples.zeroMax [Samples.joinPress Samples.alice]
              (Samples.queueOpenWith Samples.zeroMax) in
  maxPlayerCount Samples.zeroMax = 0
  /\ size (players st) = 1%nat
  /\ queueStopped st = None.
Proof. by vm_compute. Qed.

(** With [maxPlayerCount] at least 1 and the Join presses handled one
    after the other on an empty running queue, the collection never holds
    more than [maxPlayerCount] players and the collector is stopped exactly
    when it holds [maxPlayerCount]; the rounds leave the number of players
    alone; and a game that entered its rounds has between [minPlayerCount]
    and [maxPlayerCount] players. *)
Lemma queue_stays_within_capacity (opts : TriviaGameOptionsStrict)
    (this : Game) (presses : list MessageComponentInteraction)
    (env : QueueEndEnv) (st : State) :
  players st = ∅ ->
  queueStopped st = None ->
  started st = false ->
  1 ≤ maxPlayerCount opts ->
  let queued := queueCollects opts presses st in
  let final := queueEnd opts this env queued in
  Z.of_nat (size (players queued)) ≤ maxPlayerCount opts
  /\ (is_Some (queueStopped queued)
      <-> Z.of_nat (size (players queued)) = maxPlayerCount opts)
  /\ size (players final) = size (players queued)
  /\ (started final = true ->
      minPlayerCount opts ≤ Z.of_nat (size (players final))
      /\ Z.of_nat (size (players final)) ≤ maxPlayerCount opts).
Proof.
  intros Hempty Hrun Hfresh Hmax queued final.
  assert (Hcap : withinCapacity opts queued).
  { apply queueCollects_withinCapacity. unfold withinCapacity.
    rewrite Hempty, Hrun, map_size_empty. split; [lia |].
    split; [by intros [? ?] | simpl; lia]. }
  destruct Hcap as (Hle & Hiff).
  assert (Hq : started queued = false).
  { subst queued. by rewrite started_queueCollects. }
  destruct (decide (minPlayerCount opts ≤ Z.of_nat (size (players queued))))
    as [Hmin | Hmin].
  - assert (Hsize : size (players final) = size (players queued)).
    { subst final. rewrite queueEnd_initializes by done.
      unfold initializeGame. rewrite Rounds.beginGameLoop_size.
      by destruct (deletable env). }
    split; [done |]. split; [done |]. split; [done |].
    intros _. rewrite Hsize. done.
  - assert (Hfail : final
                    = emit failedRequirements
                        (end_ this (if deletable env
                                    then emit QueueMessageDelete queued
                                    else queued))).
    { subst final. apply queueEnd_fails. lia. }
    assert (Hsize : size (players final) = size (players queued)).
    { rewrite Hfail. by destruct (deletable env). }
    split; [done |]. split; [done |]. split; [done |].
    intros Hstarted. exfalso. rewrite Hfail in Hstarted.
    rewrite started_emit in Hstarted. unfold end_, started in Hstarted, Hq.
    destruct (deletable env); simpl in Hstarted.
    + rewrite existsb_app, Hq in Hstarted. simpl in Hstarted. done.
    + rewrite Hq in Hstarted. done.
Qed.

(** C4 (as the code behaves).  With room for one player
    ([maxPlayerCount = 1], [minPlayerCount = 1]), Alice and Bob press Join
    so that both handlers are past the [players.has] test before either
    stored its player.  Both players are stored, each size test sees 2, so
    the collector is never stopped; when its timer ends the queue, the
    game enters its rounds with two players, more than the configured
    maximum. *)
Theorem overlapping_joins_start_oversized_game :
  let queued :=
    fst (eventLoop Samples.oneSeat Samples.overlappingJoins
           (Samples.queueOpenWith Samples.oneSeat, [])) in
  let final := queueEnd Samples.oneSeat Samples.gameOne (Samples.endedAfter 2)
                 queued in
  maxPlayerCount Samples.oneSeat = 1
  /\ minPlayerCount Samples.oneSeat = 1
  /\ size (players queued) = 2%nat
  /\ queueStopped queued = None
  /\ started final = true
  /\ size (players final) = 2%nat
  /\ ~ (Z.of_nat (size (players final)) ≤ maxPlayerCount Samples.oneSeat).
Proof. vm_compute. repeat split. intros H. by apply H. Qed.

End QueueEnd.

(** ** Handlers that overlap *)
Module Overlap.

Import TriviaGame.

(** X17.  A handler that is given every turn until it finished, with no
    other press in between, does what [queueCollect] does: the
    run-to-completion reading of the handler is the event loop with presses
    far apart. *)
Lemma undisturbed_handler (opts : TriviaGameOptionsStrict)
    (int : MessageComponentInteraction) (st : State)
    (handlers : list Suspended) :
  queueStopped st = None ->
  eventLoop opts
    [Deliver int; Resume (length handlers); Resume (length handlers);
     Resume (length handlers)]
    (st, handlers)
  = (queueCollect opts int st, handlers ++ [Finished]).
Proof.
  intros Hrun. unfold eventLoop. cbn [fold_left].
  assert (Hd : turn opts (st, handlers) (Deliver int)
               = (fst (queueDispatch int st),
                  handlers ++ [snd (queueDispatch int st)])).
  { simpl. rewrite Hrun. by destruct (queueDispatch int st). }
  assert (Hr : forall (s : State) (k : Suspended),
             turn opts (s, handlers ++ [k]) (Resume (length handlers))
             = (fst (queueResume opts k s),
                handlers ++ [snd (queueResume opts k s)])).
  { intros s k. cbn [turn].
    rewrite lookup_app_r by lia. rewrite Nat.sub_diag. cbn [lookup list_lookup].
    destruct (queueResume opts k s) as [s' k']. cbn [fst snd].
    rewrite insert_app_r_alt by lia. by rewrite Nat.sub_diag. }
  rewrite Hd, !Hr. unfold queueDispatch, queueCollect.
  case_bool_decide as Hhas; [done |].
  cbn [fst snd queueResume]. destruct (fetched int) as [member |]; [| done].
  cbn [fst snd queueResume]. cbv zeta.
  rewrite Queue.players_reply. by case_bool_decide.
Qed.

(** With room for one player, two presses whose handlers overlap both get
    past the [players.has] test: both players are stored, the size test
    sees 2 twice and the collector is never stopped. *)
Lemma overlapping_joins_exceed_capacity :
  let '(st, handlers) :=
    eventLoop Samples.oneSeat Samples.overlappingJoins
      (Samples.queueOpenWith Samples.oneSeat, []) in
  maxPlayerCount Samples.oneSeat = 1
  /\ size (players st) = 2%nat
  /\ queueStopped st = None
  /\ handlers = [Finished; Finished].
Proof. by vm_compute. Qed.

End Overlap.

(** ** The other paths through [start] of [src/Classes/TriviaGame.ts] *)
Module LegacyStartPaths.

Import ClassesTriviaGame.

Section Paths.

Variable validate : TriviaGameOptionsStrict -> option TriviaError.

(** X1.  When the interaction has no usable guild id, or the fetched
    channel is [null] or not a text channel, [start] rejects with the
    [TypeError] of that test and leaves the registry as it was; without a
    guild id nothing is fetched at all, with a bad channel the two fetches
    are the only calls. *)
Theorem start_guards_reject (env : StartEnv) (this : Game) (w : World)
    (guild : Guild) :
  validate (readOptions (heap w) this) = None ->
  promise w = Pending ->
  guildsFetch env = inr guild ->
  (truthy (guildId env) = false ->
   start validate env this w
   = mkWorld (heap w) (games w) (log w)
       (Rejected (TypeError "guildId returned falsey")))
  /\ (truthy (guildId env) = true ->
      (channelsFetch env = inr None
       \/ exists channel,
            channelsFetch env = inr (Some channel) /\ isText channel = false) ->
      start validate env this w
      = mkWorld (heap w) (games w)
          (log w ++ [GuildsFetch (default "" (guildId env));
                     ChannelsFetch (channelId env)])
          (Rejected
             (TypeError "channel returned null or is not of type text"))).
Proof.
  intros Hv Hp Hgf. split.
  - intros Hg.
    unfold start, startBody, bind, gets, orThrow, throwIf, throw, ret. simpl.
    rewrite Hv, Hg. simpl. by rewrite Hp.
  - intros Hg Hc.
    unfold start, startBody, bind, gets, orThrow, throwIf, await, emit,
      modify, throw, ret. simpl.
    rewrite Hv, Hg, Hgf. simpl.
    destruct Hc as [-> | (channel & -> & Ht)]; simpl.
    + rewrite Hp, <- app_assoc. done.
    + rewrite Ht. simpl. rewrite Hp, <- app_assoc. done.
Qed.

(** X2.  A rejected guild or channel fetch rejects [start] with the very
    error of the fetch; nothing after the failed fetch is called and the
    registry is as it was. *)
Theorem start_fetch_rejections_propagate (env : StartEnv) (this : Game)
    (w : World) (e : TriviaError) :
  validate (readOptions (heap w) this) = None ->
  promise w = Pending ->
  truthy (guildId env) = true ->
  (guildsFetch env = inl e ->
   start validate env this w
   = mkWorld (heap w) (games w)
       (log w ++ [GuildsFetch (default "" (guildId env))]) (Rejected e))
  /\ (forall guild,
        guildsFetch env = inr guild ->
        channelsFetch env = inl e ->
        start validate env this w
        = mkWorld (heap w) (games w)
            (log w ++ [GuildsFetch (default "" (guildId env));
                       ChannelsFetch (channelId env)])
            (Rejected e)).
Proof.
  intros Hv Hp Hg. split.
  - intros Hgf.
    unfold start, startBody, bind, gets, orThrow, throwIf, await, emit,
      modify, throw, ret. simpl.
    rewrite Hv, Hg, Hgf. simpl. by rewrite Hp.
  - intros guild Hgf Hcf.
    unfold start, startBody, bind, gets, orThrow, throwIf, await, emit,
      modify, throw, ret. simpl.
    rewrite Hv, Hg, Hgf. simpl. rewrite Hcf. simpl.
    by rewrite Hp, <- app_assoc.
Qed.

(** X3.  In a channel without a game, a [start] that gets through
    registers this game under the channel's id and touches no other entry.
    When the collector function then goes through the promise is still
    pending afterwards; when it throws, the promise is rejected with what
    it threw and the game stays registered. *)
Theorem start_free_channel (env : StartEnv) (this : Game) (w : World)
    (guild : Guild) (channel : Channel) :
  validate (readOptions (heap w) this) = None ->
  truthy (guildId env) = true ->
  guildsFetch env = inr guild ->
  channelsFetch env = inr (Some channel) ->
  isText channel = true ->
  games w !! id channel = None ->
  promise w = Pending ->
  let w' := start validate env this w in
  games w' !! id channel = Some (self this)
  /\ (forall other, other ≠ id channel -> games w' !! other = games w !! other)
  /\ promise w'
     = match collectorThrows env with
       | Some e => Rejected e
       | None => Pending
       end.
Proof.
  intros Hv Hg Hgf Hcf Ht Hfree Hp w'. subst w'.
  rewrite (LegacyStart.start_reaches_registry validate env this w guild channel)
    by done.
  simpl. rewrite lookup_insert_eq. split; [done |].
  split; [intros other Hne; by rewrite lookup_insert_ne |].
  rewrite Hfree, Hp.
  rewrite bool_decide_eq_false_2 by (by intros [? ?]).
  by destruct (collectorThrows env).
Qed.

(** X4.  Whatever the validator, the interaction and the fetches do,
    [start] never writes the options heap, only ever adds calls, and
    changes no registry entry except, at most, to this game. *)
Theorem start_frame (env : StartEnv) (this : Game) (w : World) :
  let w' := start validate env this w in
  heap w' = heap w
  /\ (exists calls, log w' = log w ++ calls)
  /\ (forall key,
        games w' !! key = games w !! key
        \/ games w' !! key = Some (self this)).
Proof.
  unfold start, startBody, bind, gets, orThrow, throwIf, await, when, emit,
    gamesSet, callReject, modify, throw, ret. simpl.
  destruct (validate (readOptions (heap w) this)); simpl.
  { split; [done |]. split; [exists []; by rewrite app_nil_r | by left]. }
  destruct (truthy (guildId env)); simpl.
  2: { split; [done |]. split; [exists []; by rewrite app_nil_r | by left]. }
  destruct (guildsFetch env) as [e | guild]; simpl.
  { split; [done |]. split; [eauto | by left]. }
  destruct (channelsFetch env) as [e | [channel |]]; simpl.
  { split; [done |]. split; [rewrite <- app_assoc; eauto | by left]. }
  2: { split; [done |]. split; [rewrite <- app_assoc; eauto | by left]. }
  destruct (isText channel); simpl.
  2: { split; [done |]. split; [rewrite <- app_assoc; eauto | by left]. }
  destruct (bool_decide (is_Some (games w !! id channel))),
    (collectorThrows env); simpl;
    (split; [done |]; split; [rewrite <- !app_assoc; eauto |]);
    intros key; rewrite lookup_insert; case_decide; eauto.
Qed.

End Paths.

Lemma start_guards_reject_witness :
  start Samples.acceptAll Samples.noGuildEnv Samples.secondGame
    Samples.busyWorld
  = mkWorld (heap Samples.busyWorld) (games Samples.busyWorld) []
      (Rejected (TypeError "guildId returned falsey"))
  /\ start Samples.acceptAll Samples.voiceEnv Samples.secondGame
       Samples.busyWorld
     = mkWorld (heap Samples.busyWorld) (games Samples.busyWorld)
         [GuildsFetch "guild-1"; ChannelsFetch "channel-2"]
         (Rejected (TypeError "channel returned null or is not of type text")).
Proof.
  split.
  - exact (proj1 (start_guards_reject Samples.acceptAll Samples.noGuildEnv
                    Samples.secondGame Samples.busyWorld (mkGuild "guild-1")
                    eq_refl eq_refl eq_refl) eq_refl).
  - apply (proj2 (start_guards_reject Samples.acceptAll Samples.voiceEnv
                    Samples.secondGame Samples.busyWorld (mkGuild "guild-1")
                    eq_refl eq_refl eq_refl) eq_refl).
    right. exists (mkChannel "channel-2" false). split; reflexivity.
Defined.

Lemma start_fetch_rejections_propagate_witness :
  start Samples.acceptAll Samples.unknownGuildEnv Samples.secondGame
    Samples.busyWorld
  = mkWorld (heap Samples.busyWorld) (games Samples.busyWorld)
      [GuildsFetch "guild-1"]
      (Rejected (ThrownBy "guilds.fetch" "Unknown Guild")).
Proof.
  exact (proj1 (start_fetch_rejections_propagate Samples.acceptAll
                  Samples.unknownGuildEnv Samples.secondGame Samples.busyWorld
                  (ThrownBy "guilds.fetch" "Unknown Guild")
                  eq_refl eq_refl eq_refl) eq_refl).
Defined.

Lemma start_free_channel_witness :
  games (start Samples.acceptAll Samples.brokenCollectorEnv Samples.secondGame
           Samples.busyWorld) !! "channel-2" = Some 2%nat
  /\ promise (start Samples.acceptAll Samples.brokenCollectorEnv
                Samples.secondGame Samples.busyWorld)
     = Rejected (ThrownBy "channel.send" "Missing Permissions").
Proof.
  pose proof (start_free_channel Samples.acceptAll Samples.brokenCollectorEnv
                Samples.secondGame Samples.busyWorld (mkGuild "guild-1")
                Samples.freeChannel eq_refl eq_refl eq_refl eq_refl eq_refl
                eq_refl eq_refl) as (H1 & _ & H2).
  split; [exact H1 | exact H2].
Defined.

End LegacyStartPaths.

(** ** The other paths through [start] of the collector revision *)
Module StartPaths.

Import TriviaGame.

Section Paths.

Variable validateDiscordStructures : Game -> option TriviaError.
Variable validateGameOptions : TriviaGameOptionsStrict -> option TriviaError.

(** X5.  This revision of [start] has no test of the registry: once both
    validators pass and the SDK calls go through, the game is stored under
    its channel id whatever was stored there before, the promise is left
    as it was, and the calls are the reply, the queue message and the
    collector created for [queueTime], in that order. *)
Theorem start_registers_unconditionally (opts : TriviaGameOptionsStrict)
    (env : StartEnv) (this : Game) (st : State) :
  validateDiscordStructures this = None ->
  validateGameOptions opts = None ->
  replyRejects env = None ->
  queueSendRejects env = None ->
  let st' := start validateDiscordStructures validateGameOptions opts env this st in
  games st' = <[channelId this := self this]> (games st)
  /\ promise st' = promise st
  /\ players st' = players st
  /\ log st'
     = log st ++ [InteractionReply "Game has been started" true;
                  ChannelSend (GameQueueStart buttonRowQueue);
                  CreateMessageComponentCollector false (queueTime opts)].
Proof.
  intros Hs Ho Hr Hq st'. subst st'.
  unfold start, startBody, startComponentCollector, bind, orThrow, modify,
    throw, ret.
  rewrite Hs, Ho, Hr, Hq. simpl. by rewrite <- !app_assoc.
Qed.

(** X6.  The failures of [start] other than the options validator.  A
    throw of the structures validator rejects before anything happened.  A
    rejected reply or a rejected queue message rejects [start] after the
    game was stored: the registry keeps the game, and no collector was
    created. *)
Theorem start_failures (opts : TriviaGameOptionsStrict) (env : StartEnv)
    (this : Game) (st : State) (e : TriviaError) :
  promise st = Pending ->
  (validateDiscordStructures this = Some e ->
   start validateDiscordStructures validateGameOptions opts env this st
   = setPromise (Rejected e) st)
  /\ (validateDiscordStructures this = None ->
      validateGameOptions opts = None ->
      replyRejects env = Some e ->
      start validateDiscordStructures validateGameOptions opts env this st
      = mkState (<[channelId this := self this]> (games st)) (players st)
          (questions st) (queueStopped st)
          (log st ++ [InteractionReply "Game has been started" true])
          (Rejected e))
  /\ (validateDiscordStructures this = None ->
      validateGameOptions opts = None ->
      replyRejects env = None ->
      queueSendRejects env = Some e ->
      start validateDiscordStructures validateGameOptions opts env this st
      = mkState (<[channelId this := self this]> (games st)) (players st)
          (questions st) (queueStopped st)
          (log st ++ [InteractionReply "Game has been started" true;
                      ChannelSend (GameQueueStart buttonRowQueue)])
          (Rejected e)).
Proof.
  intros Hp.
  unfold start, startBody, startComponentCollector, bind, orThrow, modify,
    throw, ret.
  split; [intros ->; simpl; by rewrite Hp |].
  split.
  - intros -> -> ->. simpl. unfold setPromise. simpl. by rewrite Hp.
  - intros -> -> -> ->. simpl. unfold setPromise. simpl.
    by rewrite Hp, <- app_assoc.
Qed.

End Paths.

Lemma start_registers_unconditionally_witness :
  let st' := start Samples.acceptAll Samples.acceptAll defaults
               Samples.quietStart Samples.gameOne
               (initialState {[ "channel-1" := 7%nat ]}) in
  games st' = <[ "channel-1" := 1%nat ]> {[ "channel-1" := 7%nat ]}
  /\ promise st' = Pending.
Proof.
  pose proof (start_registers_unconditionally Samples.acceptAll
                Samples.acceptAll defaults Samples.quietStart Samples.gameOne
                (initialState {[ "channel-1" := 7%nat ]})
                eq_refl eq_refl eq_refl eq_refl) as (H1 & H2 & _).
  split; [exact H1 | exact H2].
Defined.

Lemma start_failures_witness :
  start Samples.acceptAll Samples.acceptAll defaults Samples.replyFails
    Samples.gameOne (initialState ∅)
  = mkState {[ "channel-1" := 1%nat ]} ∅ [] None
      [InteractionReply "Game has been started" true]
      (Rejected (ThrownBy "interaction.reply" "Unknown interaction")).
Proof.
  pose proof (start_failures Samples.acceptAll Samples.acceptAll defaults
                Samples.replyFails Samples.gameOne (initialState ∅)
                (ThrownBy "interaction.reply" "Unknown interaction") eq_refl)
    as (_ & H & _).
  etrans; [exact (H eq_refl eq_refl eq_refl) | reflexivity].
Defined.

End StartPaths.

(** ** Laws of the option merge *)
Module MergingLaws.

Import TriviaGame Bookkeeping.

Lemma default_union {A} (d : A) (later earlier : option A) :
  default (default d earlier) later = default d (later ∪ earlier).
Proof. by destruct later, earlier. Qed.

(** X7.  Merging an object without keys changes nothing; merging the same
    object twice is merging it once; and merging two objects one after the
    other is merging their overlay, in which the later object's keys win. *)
Theorem assignFields_laws (target : TriviaGameOptionsStrict)
    (first second : TriviaGameOptions) :
  assignFields target noKeys = target
  /\ assignFields (assignFields target first) first = assignFields target first
  /\ assignFields (assignFields target first) second
     = assignFields target (overlay second first).
Proof.
  split; [by destruct target |].
  split.
  - unfold assignFields. simpl.
    destruct first as [a b c d e f g h].
    by destruct a, b, c, d, e, f, g, h.
  - unfold assignFields, overlay. simpl.
    by rewrite !default_union.
Qed.

Lemma constructMany_heap (next : GameRef)
    (requests : list (string * option TriviaGameOptions))
    (heap : gmap Loc TriviaGameOptionsStrict) (d : TriviaGameOptionsStrict) :
  heap !! defaultsLoc = Some d ->
  fst (constructMany next requests heap) !! defaultsLoc
  = Some (fold_left assignFields (passed requests) d).
Proof.
  revert next heap d.
  induction requests as [| [channel opts] rest IH]; intros next heap d Hd;
    [done |].
  cbn [constructMany].
  destruct (construct next channel opts heap) as [heap1 g] eqn:Hc.
  destruct (constructMany (S next) rest heap1) as [heap2 gs] eqn:Hm.
  cbn [fst]. change heap2 with (fst (heap2, gs)). rewrite <- Hm.
  destruct opts as [o |]; unfold passed; cbn [omap snd mbind option_bind].
  - unfold construct, objectAssign in Hc. injection Hc as <- _.
    apply IH. rewrite lookup_alter_eq. by rewrite Hd.
  - unfold construct in Hc. injection Hc as <- _. by apply IH.
Qed.

Lemma constructMany_options (next : GameRef)
    (requests : list (string * option TriviaGameOptions))
    (heap : gmap Loc TriviaGameOptionsStrict) (g : Game) :
  g ∈ snd (constructMany next requests heap) -> options g = defaultsLoc.
Proof.
  revert next heap.
  induction requests as [| [channel opts] rest IH]; intros next heap.
  - simpl. by intros ?%elem_of_nil.
  - cbn [constructMany].
    destruct (construct next channel opts heap) as [heap1 g1] eqn:Hc.
    destruct (constructMany (S next) rest heap1) as [heap2 gs] eqn:Hm.
    cbn [snd]. intros [-> | Hin]%elem_of_cons.
    + by destruct opts; unfold construct, objectAssign in Hc;
        injection Hc as _ <-.
    + apply (IH (S next) heap1). by rewrite Hm.
Qed.

(** X8.  After any number of constructions, every one of the games reads
    the same options: the literal defaults with all options objects that
    were ever passed merged in, in the order of construction.  Options are
    per process, not per game. *)
Theorem games_share_one_options_object (next : GameRef)
    (requests : list (string * option TriviaGameOptions)) (g : Game) :
  g ∈ snd (constructMany next requests initialHeap) ->
  readOptions (fst (constructMany next requests initialHeap)) g
  = fold_left assignFields (passed requests) defaults.
Proof.
  intros Hin. unfold readOptions.
  rewrite (constructMany_options next requests initialHeap g Hin).
  apply lookup_total_correct, constructMany_heap.
  apply lookup_singleton_eq.
Qed.

Lemma games_share_one_options_object_witness :
  readOptions (fst (constructMany 1%nat Samples.fourRequests initialHeap))
    (mkGame 4%nat "channel-d" defaultsLoc)
  = mkStrict 2 5 20000 None 10 None None 15000.
Proof.
  assert (Hin : mkGame 4%nat "channel-d" defaultsLoc
                ∈ snd (constructMany 1%nat Samples.fourRequests initialHeap)).
  { vm_compute. do 3 apply list_elem_of_further. apply list_elem_of_here. }
  etrans;
    [exact (games_share_one_options_object 1%nat Samples.fourRequests _ Hin)
    | reflexivity].
Defined.

End MergingLaws.

(** ** Runs of the queue collector *)
Module QueueRuns.

Import TriviaGame Bookkeeping.

(** X9.  A Join press by a user who is not queued.  When the member
    cannot be fetched the only effect is the ephemeral failure reply.
    When the member is found under an id that is not queued, exactly one
    record is added, the calls are the ephemeral confirmation and the
    public announcement, and the collector is stopped if and only if the
    collection now holds [maxPlayerCount] players. *)
Theorem first_press_outcomes (opts : TriviaGameOptionsStrict)
    (int : MessageComponentInteraction) (st : State) :
  players st !! userId int = None ->
  (fetched int = None ->
   queueCollect opts int st
   = reply int "Failed to enter you into the queue, please try again" true st)
  /\ (forall member,
        fetched int = Some member ->
        players st !! memberId member = None ->
        let st' := queueCollect opts int st in
        size (players st') = S (size (players st))
        /\ players st' !! memberId member = Some (initialPlayer member)
        /\ log st'
           = log (reply int "Successfully joined queue" true st)
             ++ [ChannelSend
                   (Content ("**" +:+ memberDisplayName member
                             +:+ "** has joined in!"))]
             ++ (if bool_decide (Z.of_nat (S (size (players st)))
                                 = maxPlayerCount opts)
                 then [CollectorStop capacityReached]
                 else [])
        /\ queueStopped st'
           = if bool_decide (Z.of_nat (S (size (players st)))
                             = maxPlayerCount opts)
             then Some (default capacityReached (queueStopped st))
             else queueStopped st).
Proof.
  intros Hnew. split.
  - intros Hf. unfold queueCollect.
    rewrite bool_decide_eq_false_2 by (rewrite Hnew; by intros [? ?]).
    by rewrite Hf.
  - intros member Hf Hfree st'. subst st'. unfold queueCollect.
    rewrite bool_decide_eq_false_2 by (rewrite Hnew; by intros [? ?]).
    rewrite Hf. cbv zeta. cbn [id displayName initialPlayer].
    assert (Hsz : size (<[memberId member := initialPlayer member]>
                          (players (reply int "Successfully joined queue"
                                      true st)))
                  = S (size (players st))).
    { rewrite Queue.players_reply. by apply map_size_insert_None. }
    cbn [players emit setPlayers]. rewrite Hsz.
    case_bool_decide as Hfull; simpl.
    + rewrite Queue.players_reply, Queue.queueStopped_reply.
      rewrite map_size_insert_None, lookup_insert_eq by done.
      split; [done |]. split; [done |].
      split; [by rewrite <- app_assoc | by destruct (queueStopped st)].
    + rewrite Queue.players_reply, Queue.queueStopped_reply.
      rewrite map_size_insert_None, lookup_insert_eq by done.
      done.
Qed.

Lemma first_press_outcomes_witness :
  queueCollect defaults Samples.ghostPress Samples.queueOpen
  = reply Samples.ghostPress
      "Failed to enter you into the queue, please try again" true
      Samples.queueOpen.
Proof.
  exact (proj1 (first_press_outcomes defaults Samples.ghostPress
                  Samples.queueOpen eq_refl) eq_refl).
Defined.

(** Handling one batch of presses and then another is handling the two
    batches in one go. *)
Lemma queueCollects_app (opts : TriviaGameOptionsStrict)
    (earlier later : list MessageComponentInteraction) (st : State) :
  queueCollects opts (earlier ++ later) st
  = queueCollects opts later (queueCollects opts earlier st).
Proof.
  revert st. induction earlier as [| int rest IH]; intros st; [done |].
  simpl. destruct (queueStopped st) eqn:Hs; [| apply IH].
  destruct later; simpl; by rewrite ?Hs.
Qed.

Lemma queueCollect_frame (opts : TriviaGameOptionsStrict)
    (int : MessageComponentInteraction) (st : State) :
  games (queueCollect opts int st) = games st
  /\ questions (queueCollect opts int st) = questions st
  /\ promise (queueCollect opts int st) = promise st
  /\ exists calls, log (queueCollect opts int st) = log st ++ calls.
Proof.
  unfold queueCollect, reply, collectorStop.
  case_bool_decide; [destruct (replied int); simpl; eauto |].
  destruct (fetched int); [| destruct (replied int); simpl; eauto].
  cbv zeta. case_bool_decide; destruct (replied int); simpl;
    rewrite <- ?app_assoc; eauto 10.
Qed.

(** X11.  The queue phase only ever adds: whatever the presses, the
    manager's registry, the fetched questions and the promise are left
    alone, earlier calls stay in the log, and nobody who is in the queue
    drops out of it. *)
Theorem queue_only_adds (opts : TriviaGameOptionsStrict)
    (presses : list MessageComponentInteraction) (st : State) :
  let st' := queueCollects opts presses st in
  games st' = games st
  /\ questions st' = questions st
  /\ promise st' = promise st
  /\ (exists calls, log st' = log st ++ calls)
  /\ (forall key, is_Some (players st !! key) -> is_Some (players st' !! key)).
Proof.
  revert st. induction presses as [| int rest IH]; intros st.
  - simpl. repeat split; try done. exists []. by rewrite app_nil_r.
  - simpl. destruct (queueStopped st).
    + repeat split; try done. exists []. by rewrite app_nil_r.
    + destruct (IH (queueCollect opts int st)) as (Hg & Hq & Hp & (c2 & Hl) & Hk).
      destruct (queueCollect_frame opts int st) as (Hg1 & Hq1 & Hp1 & (c1 & Hl1)).
      rewrite Hg, Hq, Hp, Hl, Hg1, Hq1, Hp1, Hl1.
      repeat split; try done.
      * exists (c1 ++ c2). by rewrite app_assoc.
      * intros key Hin. apply Hk.
        destruct (Queue.queueCollect_players opts int st)
          as [-> | (m & _ & _ & ->)]; [done |].
        rewrite lookup_insert. case_decide; eauto.
Qed.

Lemma queue_only_adds_witness :
  is_Some (players (queueCollects defaults
                      [Samples.joinPress Samples.carol; Samples.ghostPress]
                      Samples.twoQueued) !! "100").
Proof.
  assert (Hin : is_Some (players Samples.twoQueued !! "100"))
    by (vm_compute; eauto).
  pose proof (queue_only_adds defaults
                [Samples.joinPress Samples.carol; Samples.ghostPress]
                Samples.twoQueued) as (_ & _ & _ & _ & Hk).
  exact (Hk "100" Hin).
Defined.

Lemma queueStopped_join (opts : TriviaGameOptionsStrict)
    (int : MessageComponentInteraction) (member : GuildMember) (st : State) :
  players st !! userId int = None ->
  fetched int = Some member ->
  queueStopped st = None ->
  queueStopped (queueCollect opts int st)
  = if bool_decide
         (Z.of_nat (size (players (queueCollect opts int st)))
          = maxPlayerCount opts)
    then Some capacityReached
    else None.
Proof.
  intros Hnew Hf Hrun. unfold queueCollect.
  rewrite bool_decide_eq_false_2 by (rewrite Hnew; by intros [? ?]).
  rewrite Hf. cbv zeta.
  case_bool_decide as Hfull; simpl in *.
  - rewrite Queue.queueStopped_reply, Hrun.
    by rewrite bool_decide_eq_true_2.
  - rewrite Queue.queueStopped_reply, Hrun.
    by rewrite bool_decide_eq_false_2.
Qed.

Lemma distinct_joiners_fill (opts : TriviaGameOptionsStrict)
    (presses : list MessageComponentInteraction) (st : State) :
  Forall wellFetched presses ->
  NoDup (userId <$> presses) ->
  (forall int, int ∈ presses -> players st !! userId int = None) ->
  queueStopped st = None ->
  Z.of_nat (size (players st)) < maxPlayerCount opts ->
  size (players (queueCollects opts presses st))
  = Nat.min (size (players st) + length presses)
      (Z.to_nat (maxPlayerCount opts)).
Proof.
  revert st. induction presses as [| int rest IH];
    intros st Hwf Hnd Hnew Hrun Hroom.
  - simpl. lia.
  - cbn [queueCollects]. rewrite Hrun.
    apply Forall_cons in Hwf as ((member & Hf & Hid) & Hwf).
    rewrite fmap_cons in Hnd. apply NoDup_cons in Hnd as (Hfresh & Hnd).
    assert (Hint : players st !! userId int = None)
      by (apply Hnew; left).
    pose proof (Queue.queueCollect_joins opts int member st Hint Hf) as Hpl.
    pose proof (queueStopped_join opts int member st Hint Hf Hrun) as Hst.
    assert (Hsz : size (players (queueCollect opts int st))
                  = S (size (players st))).
    { rewrite Hpl. apply map_size_insert_None. by rewrite Hid. }
    case_bool_decide as Hfull.
    + destruct rest; cbn [queueCollects]; rewrite ?Hst; simpl; lia.
    + rewrite IH; try done; [simpl; lia | | lia].
      intros int' Hin. rewrite Hpl, lookup_insert_ne.
      * apply Hnew. by right.
      * rewrite Hid. intros Heq. apply Hfresh.
        rewrite Heq. apply list_elem_of_fmap. eauto.
Qed.

(** X12.  When pairwise different users press Join on a new game, each
    with a member object carrying the presser's id, and [maxPlayerCount] is
    at least 1, the queue ends up with as many players as there were
    presses, capped at [maxPlayerCount]. *)
Theorem distinct_joiners_counted (opts : TriviaGameOptionsStrict)
    (presses : list MessageComponentInteraction) (st : State) :
  players st = ∅ ->
  queueStopped st = None ->
  1 ≤ maxPlayerCount opts ->
  Forall wellFetched presses ->
  NoDup (userId <$> presses) ->
  size (players (queueCollects opts presses st))
  = Nat.min (length presses) (Z.to_nat (maxPlayerCount opts)).
Proof.
  intros Hempty Hrun Hmax Hwf Hnd.
  rewrite distinct_joiners_fill; try done.
  - by rewrite Hempty, map_size_empty.
  - intros int _. by rewrite Hempty, lookup_empty.
  - rewrite Hempty, map_size_empty. lia.
Qed.

Lemma distinct_joiners_counted_witness :
  size (players (queueCollects Samples.twoSeats
                   [Samples.joinPress Samples.alice;
                    Samples.joinPress Samples.bob;
                    Samples.joinPress Samples.carol]
                   (Samples.queueOpenWith Samples.twoSeats)))
  = 2%nat.
Proof.
  assert (Hwf : Forall wellFetched
                  [Samples.joinPress Samples.alice;
                   Samples.joinPress Samples.bob;
                   Samples.joinPress Samples.carol]).
  { repeat constructor; eexists; split; reflexivity. }
  assert (Hnd : NoDup (userId <$> [Samples.joinPress Samples.alice;
                                   Samples.joinPress Samples.bob;
                                   Samples.joinPress Samples.carol])).
  { compute_done. }
  assert (Hmax : 1 ≤ maxPlayerCount Samples.twoSeats) by (by vm_compute).
  etrans;
    [exact (distinct_joiners_counted Samples.twoSeats _
              (Samples.queueOpenWith Samples.twoSeats)
              eq_refl eq_refl Hmax Hwf Hnd)
    | reflexivity].
Defined.

Lemma queueCollects_records (opts : TriviaGameOptionsStrict)
    (ok : string -> TriviaPlayer -> Prop)
    (presses : list MessageComponentInteraction) (st : State) :
  (forall key p, players st !! key = Some p -> ok key p) ->
  (forall int member,
     int ∈ presses -> fetched int = Some member ->
     ok (memberId member) (initialPlayer member)) ->
  forall key p,
    players (queueCollects opts presses st) !! key = Some p -> ok key p.
Proof.
  revert st. induction presses as [| int rest IH]; intros st Hst Hnew; [done |].
  simpl. destruct (queueStopped st); [done |].
  apply IH.
  - intros key p.
    destruct (Queue.queueCollect_players opts int st)
      as [-> | (m & _ & Hf & ->)]; [apply Hst |].
    rewrite lookup_insert. case_decide as Hk; [| apply Hst].
    intros [= <-]. subst key. apply (Hnew int m); [left | done].
  - intros int' m Hin. apply Hnew. by right.
Qed.

(** X13.  Every record in the queue of a new game was put there by one of
    the presses: it is the record of the member object fetched for that
    press, stored under that member's id and showing that member's display
    name. *)
Theorem queued_players_come_from_presses (opts : TriviaGameOptionsStrict)
    (presses : list MessageComponentInteraction)
    (registry : gmap string GameRef) (key : string) (p : TriviaPlayer) :
  players (queueCollects opts presses (initialState registry)) !! key = Some p ->
  exists int member,
    int ∈ presses
    /\ fetched int = Some member
    /\ memberId member = key
    /\ displayName p = memberDisplayName member
    /\ id p = key.
Proof.
  apply (queueCollects_records opts
           (fun key p =>
              exists int member,
                int ∈ presses /\ fetched int = Some member
                /\ memberId member = key
                /\ displayName p = memberDisplayName member /\ id p = key)).
  - intros k q. simpl. by rewrite lookup_empty.
  - intros int member Hin Hf. exists int, member. done.
Qed.

Lemma queued_players_come_from_presses_witness :
  exists int member,
    int ∈ [Samples.joinPress Samples.alice; Samples.joinPress Samples.bob]
    /\ fetched int = Some member
    /\ memberId member = "200"
    /\ displayName (initialPlayer Samples.bob) = memberDisplayName member
    /\ id (initialPlayer Samples.bob) = "200".
Proof.
  exact (queued_players_come_from_presses defaults
           [Samples.joinPress Samples.alice; Samples.joinPress Samples.bob]
           ∅ "200" (initialPlayer Samples.bob) eq_refl).
Defined.

End QueueRuns.

(** ** Scores over a whole game *)
Module Scores.

Import TriviaGame Lifecycle Bookkeeping.

Lemma addPoints_zero (p : TriviaPlayer) : addPoints 0 p = p.
Proof. destruct p. unfold addPoints. simpl. f_equal. lia. Qed.

Lemma addPoints_add (a b : Z) (p : TriviaPlayer) :
  addPoints b (addPoints a p) = addPoints (a + b) p.
Proof. unfold addPoints. simpl. f_equal. lia. Qed.

Lemma tallyPress_lookup (q : TriviaQuestion)
    (standings : gmap string TriviaPlayer)
    (i : MessageComponentInteraction) (key : string) :
  tallyPress q standings i !! key
  = addPoints (if isCorrectPress q key i then 1 else 0) <$> standings !! key.
Proof.
  unfold tallyPress, isCorrectPress.
  destruct (standings !! userId i) as [p |] eqn:Hp.
  - destruct (checkAnswer q (pressedAnswer q i)).
    + rewrite lookup_insert. case_decide as Hk.
      * subst key. rewrite bool_decide_eq_true_2 by done. by rewrite Hp.
      * rewrite bool_decide_eq_false_2 by done. simpl.
        destruct (standings !! key); simpl; by rewrite ?addPoints_zero.
    + rewrite andb_false_r.
      destruct (standings !! key); simpl; by rewrite ?addPoints_zero.
  - case_bool_decide as Hk; simpl.
    + subst key. by rewrite Hp.
    + destruct (standings !! key); simpl; by rewrite ?addPoints_zero.
Qed.

Lemma tally_lookup (q : TriviaQuestion)
    (presses : list MessageComponentInteraction)
    (standings : gmap string TriviaPlayer) (key : string) :
  tally q presses standings !! key
  = addPoints (Z.of_nat (correctPresses q presses key)) <$> standings !! key.
Proof.
  unfold tally, correctPresses. revert standings.
  induction presses as [| i rest IH]; intros standings.
  - simpl. destruct (standings !! key); simpl; by rewrite ?addPoints_zero.
  - simpl. rewrite IH, tallyPress_lookup.
    destruct (standings !! key) as [p |]; [| done]. simpl.
    rewrite addPoints_add. do 2 f_equal.
    destruct (isCorrectPress q key i); simpl; lia.
Qed.

Lemma finalStandings_lookup (qs : list TriviaQuestion)
    (presses : list (list MessageComponentInteraction))
    (standings : gmap string TriviaPlayer) (key : string) :
  finalStandings qs presses standings !! key
  = addPoints (Z.of_nat (earned qs presses key)) <$> standings !! key.
Proof.
  revert presses standings.
  induction qs as [| q rest IH]; intros presses standings.
  - simpl. destruct (standings !! key); simpl; by rewrite ?addPoints_zero.
  - cbn [finalStandings earned]. rewrite IH, tally_lookup.
    destruct (standings !! key) as [p |]; [| done]. simpl.
    rewrite addPoints_add. do 2 f_equal. lia.
Qed.

Lemma beginGameLoop_players (opts : TriviaGameOptionsStrict)
    (qs : list TriviaQuestion)
    (presses : list (list MessageComponentInteraction)) (st : State) :
  players (beginGameLoop opts qs presses st)
  = finalStandings qs presses (players st).
Proof.
  revert presses st. induction qs as [| q rest IH]; intros presses st; [done |].
  cbn [beginGameLoop finalStandings]. rewrite IH.
  by destruct (Rounds.emitQuestion_round opts q (hd [] presses) st) as (-> & _).
Qed.

(** X14.  After the game loop, a player's [points] are the points before
    plus the number of that player's presses on an answer that checked,
    counted over all rounds; every other key of the player's record, and
    the set of players, is what it was before the first round. *)
Theorem points_count_correct_presses (opts : TriviaGameOptionsStrict)
    (qs : list TriviaQuestion)
    (presses : list (list MessageComponentInteraction)) (st : State)
    (key : string) :
  players (beginGameLoop opts qs presses st) !! key
  = match players st !! key with
    | Some p =>
        Some (mkPlayer (id p) (displayName p)
                (points p + Z.of_nat (earned qs presses key))
                (hasAnswered p) (isCorrect p) (leaderboardPosition p))
    | None => None
    end.
Proof.
  rewrite beginGameLoop_players, finalStandings_lookup.
  by destruct (players st !! key).
Qed.

(** X15.  Presses that score nothing.  A press by somebody who is not a
    player is dropped by the filter: no call, no change.  A player's press
    on an answer that does not check changes no record, yet the "locked
    in" notice for it goes out like for a correct one. *)
Theorem presses_without_points (q : TriviaQuestion)
    (i : MessageComponentInteraction) (st : State) :
  (players st !! userId i = None -> questionPress q st i = st)
  /\ (forall member,
        is_Some (players st !! userId i) ->
        checkAnswer q (pressedAnswer q i) = false ->
        fetched i = Some member ->
        players (questionPress q st i) = players st
        /\ log (questionPress q st i) = log st ++ [lockedIn member i]).
Proof.
  unfold questionPress, questionFilter, questionCollect. split.
  - intros Hout. rewrite Hout.
    by rewrite bool_decide_eq_false_2 by (by intros [? ?]).
  - intros member [p Hp] Hwrong Hf.
    rewrite Hp, Hwrong, Hf. by rewrite bool_decide_eq_true_2 by eauto.
Qed.

Lemma presses_without_points_witness :
  questionPress Samples.capital Samples.twoQueued Samples.outsiderPress
  = Samples.twoQueued
  /\ players (questionPress Samples.capital Samples.twoQueued
                Samples.wrongPress)
     = players Samples.twoQueued
  /\ log (questionPress Samples.capital Samples.twoQueued Samples.wrongPress)
     = log Samples.twoQueued
       ++ [ChannelSend (Content "**Bob** has locked in!")].
Proof.
  split.
  - exact (proj1 (presses_without_points Samples.capital Samples.outsiderPress
                    Samples.twoQueued) eq_refl).
  - assert (Hin : is_Some (players Samples.twoQueued
                           !! userId Samples.wrongPress))
      by (vm_compute; eauto).
    exact (proj2 (presses_without_points Samples.capital Samples.wrongPress
                    Samples.twoQueued) Samples.bob Hin eq_refl eq_refl).
Defined.

End Scores.

(** ** A game that gets to play *)
Module Played.

Import TriviaGame Lifecycle.

Lemma questionPress_questions (q : TriviaQuestion) (st : State)
    (i : MessageComponentInteraction) :
  questions (questionPress q st i) = questions st.
Proof.
  unfold questionPress, questionFilter, questionCollect.
  case_bool_decide; [| done].
  by destruct (players st !! userId i), (checkAnswer q (pressedAnswer q i)),
    (fetched i).
Qed.

Lemma collected_questions (q : TriviaQuestion)
    (presses : list MessageComponentInteraction) (st : State) :
  questions (fold_left (questionPress q) presses st) = questions st.
Proof.
  revert st. induction presses as [| i rest IH]; intros st; [done |].
  simpl. by rewrite IH, questionPress_questions.
Qed.

Lemma beginGameLoop_keeps (opts : TriviaGameOptionsStrict)
    (qs : list TriviaQuestion)
    (presses : list (list MessageComponentInteraction)) (st : State) :
  games (beginGameLoop opts qs presses st) = games st
  /\ questions (beginGameLoop opts qs presses st) = questions st.
Proof.
  revert presses st. induction qs as [| q rest IH]; intros presses st; [done |].
  cbn [beginGameLoop].
  destruct (IH (tail presses)
              (emitQuestion opts q (hd [] presses)
                 (emit (Wait 5000) (emit preparing st)))) as (-> & ->).
  destruct (Rounds.emitQuestion_round opts q (hd [] presses) st) as (_ & _ & ->).
  split; [done |]. unfold emitQuestion, questionEnd. simpl.
  by rewrite collected_questions.
Qed.

(** X16.  When the queue collector ends with at least [minPlayerCount]
    players, the handler first tries to delete the queue message (if
    deletable), then asks for questions with the configured amount,
    difficulty and type, stores what it got in [questions], sends the
    game-start embed and plays the rounds: the question messages sent after
    it are exactly the fetched questions, in fetch order, and afterwards
    every player has the points from before plus one per press of theirs on
    an answer that checked.  The game's registry entry is never removed on
    this path: after the last round the manager still holds the game. *)
Theorem played_game_stays_registered (opts : TriviaGameOptionsStrict)
    (this : Game) (env : QueueEndEnv) (st : State) :
  minPlayerCount opts ≤ Z.of_nat (size (players st)) ->
  let st' := queueEnd opts this env st in
  games st' = games st
  /\ questions st' = fetchedQuestions env
  /\ (exists rounds,
        log st'
        = log st
          ++ (if deletable env then [QueueMessageDelete] else [])
          ++ [GetQuestions (questionAmount opts) (questionDifficulty opts)
                (questionType opts);
              ChannelSend GameStart]
          ++ rounds
        /\ sentQuestions rounds = fetchedQuestions env)
  /\ (forall key,
        players st' !! key
        = match players st !! key with
          | Some p =>
              Some (mkPlayer (id p) (displayName p)
                      (points p
                       + Z.of_nat
                           (Bookkeeping.earned (fetchedQuestions env)
                              (roundPresses env) key))
                      (hasAnswered p) (isCorrect p) (leaderboardPosition p))
          | None => None
          end).
Proof.
  intros Hc st'. subst st'. rewrite QueueEnd.queueEnd_initializes by done.
  unfold initializeGame.
  match goal with
  | |- context [beginGameLoop opts ?q ?ps ?s] =>
      destruct (beginGameLoop_keeps opts q ps s) as (Hg & Hq);
      destruct (Rounds.rounds_follow_lifecycle opts q ps s)
        as (Hl & Hsent & Hp & _)
  end.
  rewrite Hg, Hq, Hl, Hp.
  cbn [questions games players log setQuestions emit] in *.
  split; [by destruct (deletable env) |]. split; [done |].
  split.
  - eexists. split; [| exact Hsent].
    destruct (deletable env); simpl; by rewrite <- ?app_assoc.
  - intros key. rewrite Scores.finalStandings_lookup.
    assert (Hpl : players (if deletable env
                           then emit QueueMessageDelete st else st)
                  = players st) by (by destruct (deletable env)).
    rewrite Hpl. by destruct (players st !! key).
Qed.

Lemma played_game_stays_registered_witness :
  let st' := queueEnd defaults Samples.gameOne Samples.enoughPlayers
               Samples.twoQueued in
  games st' !! "channel-1" = Some 1%nat
  /\ questions st' = [Samples.capital; Samples.capital]
  /\ (points <$> players st' !! "100") = Some 3
  /\ (points <$> players st' !! "200") = Some 1.
Proof.
  assert (Hc : minPlayerCount defaults
               ≤ Z.of_nat (size (players Samples.twoQueued)))
    by (by vm_compute).
  pose proof (played_game_stays_registered defaults Samples.gameOne
                Samples.enoughPlayers Samples.twoQueued Hc)
    as (H1 & H2 & _ & H3).
  split; [etrans; [exact (f_equal (fun m => m !! "channel-1") H1)
                  | reflexivity] |].
  split; [exact H2 |].
  split; (etrans; [exact (f_equal (fmap points) (H3 _)) | reflexivity]).
Defined.

End Played.

(** ** The event loop under any schedule *)
Module Schedules.

Import TriviaGame.

Lemma undisturbed_handler_witness :
  eventLoop defaults
    [Deliver (Samples.joinPress Samples.alice); Resume 0; Resume 0; Resume 0]
    (Samples.queueOpen, [])
  = (queueCollect defaults (Samples.joinPress Samples.alice) Samples.queueOpen,
     [Finished]).
Proof.
  exact (Overlap.undisturbed_handler defaults (Samples.joinPress Samples.alice)
           Samples.queueOpen [] eq_refl).
Defined.

Lemma turn_players (opts : TriviaGameOptionsStrict) (st : State)
    (handlers : list Suspended) (t : Turn) :
  games (fst (turn opts (st, handlers) t)) = games st
  /\ (players (fst (turn opts (st, handlers) t)) = players st
      \/ exists member,
           players (fst (turn opts (st, handlers) t))
           = <[memberId member := initialPlayer member]> (players st)).
Proof.
  destruct t as [int | n]; cbn [turn].
  - destruct (queueStopped st); [by split; [| left] |].
    unfold queueDispatch. case_bool_decide; cbn [fst].
    + rewrite Queue.games_reply, Queue.players_reply. by split; [| left].
    + by split; [| left].
  - destruct (handlers !! n) as [k |]; [| by split; [| left]].
    destruct k as [int | int member | int |]; cbn [queueResume].
    + destruct (fetched int); cbn [fst];
        rewrite Queue.games_reply, Queue.players_reply; by split; [| left].
    + cbn [fst]. split; [done |]. right. by exists member.
    + case_bool_decide; cbn [fst]; by split; [| left].
    + by split; [| left].
Qed.

(** X18.  However the turns of overlapping handlers are interleaved, the
    handlers only ever store records in the state every queued player
    starts in, under the record's own id; nobody drops out of the queue and
    the manager's registry is not touched. *)
Theorem any_schedule_keeps_records_fresh (opts : TriviaGameOptionsStrict)
    (turns : list Turn) (st : State) (handlers : list Suspended) :
  (forall key p, players st !! key = Some p -> freshlyQueued key p) ->
  let st' := fst (eventLoop opts turns (st, handlers)) in
  (forall key p, players st' !! key = Some p -> freshlyQueued key p)
  /\ (forall key, is_Some (players st !! key) -> is_Some (players st' !! key))
  /\ games st' = games st.
Proof.
  unfold eventLoop. revert st handlers.
  induction turns as [| t rest IH]; intros st handlers Hst; [done |].
  cbn [fold_left].
  destruct (turn opts (st, handlers) t) as [st1 handlers1] eqn:Ht.
  destruct (turn_players opts st handlers t) as (Hg & Hp).
  rewrite Ht in Hg, Hp. cbn [fst] in Hg, Hp.
  destruct (IH st1 handlers1) as (Hfresh & Hkeep & Hgames).
  - intros key p. destruct Hp as [-> | (member & ->)]; [apply Hst |].
    rewrite lookup_insert. case_decide as Hk; [| apply Hst].
    intros [= <-]. subst key. by repeat split.
  - split; [done |]. split; [| by rewrite Hgames].
    intros key Hin. apply Hkeep.
    destruct Hp as [-> | (member & ->)]; [done |].
    rewrite lookup_insert. case_decide; eauto.
Qed.

Lemma any_schedule_keeps_records_fresh_witness :
  games (fst (eventLoop Samples.oneSeat Samples.overlappingJoins
                (Samples.queueOpenWith Samples.oneSeat, [])))
  = games (Samples.queueOpenWith Samples.oneSeat).
Proof.
  assert (Hst : forall key p,
             players (Samples.queueOpenWith Samples.oneSeat) !! key = Some p ->
             freshlyQueued key p).
  { intros key p. vm_compute. discriminate. }
  exact (proj2 (proj2 (any_schedule_keeps_records_fresh Samples.oneSeat
                         Samples.overlappingJoins
                         (Samples.queueOpenWith Samples.oneSeat) [] Hst))).
Defined.

End Schedules.

(** ** The button rows *)
Module Rows.

Import MessageActionRows.

Lemma indexString_inj (i j : nat) : indexString i = indexString j -> i = j.
Proof.
  unfold indexString. intros H.
  apply (f_equal NilEmpty.uint_of_string) in H.
  rewrite !NilEmpty.usu in H.
  apply Unsigned.to_uint_inj. congruence.
Qed.

(** X19.  The row of a multiple-choice question has one button per given
    builder, in the same order; the button at position [i] carries the
    decimal digits of [i] as its custom id and the label and style it came
    with; no two buttons of the row share a custom id. *)
Theorem multiple_row_ids (builders : list ButtonBuilder) :
  length (buttonRowChoicesMultiple builders) = length builders
  /\ (forall i,
        buttonRowChoicesMultiple builders !! i
        = (fun b => mkButtonBuilder (Some (indexString i)) (label b) (style b))
            <$> builders !! i)
  /\ NoDup (custom_id <$> buttonRowChoicesMultiple builders).
Proof.
  unfold buttonRowChoicesMultiple.
  split; [apply length_imap |].
  split; [intros i; apply list_lookup_imap |].
  rewrite fmap_imap.
  rewrite (imap_ext _ (fun i _ => Some (indexString i))) by done.
  rewrite imap_seq_0.
  apply NoDup_fmap_2; [| apply NoDup_seq].
  intros i j [= H]. by apply indexString_inj.
Qed.

(** X20.  The row of a true/false question needs two builders: with fewer
    the function throws.  With two or more it has exactly two buttons: the
    first builder with custom id ["1"], the second with custom id ["0"];
    further builders are ignored. *)
Theorem boolean_row_ids (builders : list ButtonBuilder) :
  ((length builders < 2)%nat ->
   exists e, buttonRowChoicesBoolean builders = inl e)
  /\ (forall yes no rest,
        builders = yes :: no :: rest ->
        buttonRowChoicesBoolean builders
        = inr [mkButtonBuilder (Some "1") (label yes) (style yes);
               mkButtonBuilder (Some "0") (label no) (style no)]).
Proof.
  split.
  - intros Hlen. destruct builders as [| yes [| no rest]]; simpl in *;
      [eauto | eauto | lia].
  - by intros yes no rest ->.
Qed.

Lemma boolean_row_ids_witness :
  (exists e, buttonRowChoicesBoolean [newButton] = inl e)
  /\ buttonRowChoicesBoolean Samples.answerButtons
     = inr [mkButtonBuilder (Some "1") (Some "Paris") (Some Primary);
            mkButtonBuilder (Some "0") (Some "Rome") (Some Primary)].
Proof.
  split.
  - apply (proj1 (boolean_row_ids [newButton])). simpl. lia.
  - exact (proj2 (boolean_row_ids Samples.answerButtons) _ _ _ eq_refl).
Defined.

End Rows.

(** ** From [start] to [end] *)
Module Lifetimes.

Import TriviaGame.

Section Lifetime.

Variable validateDiscordStructures : Game -> option TriviaError.
Variable validateGameOptions : TriviaGameOptionsStrict -> option TriviaError.

Lemma start_goes_through (opts : TriviaGameOptionsStrict) (env : StartEnv)
    (this : Game) (st : State) :
  validateDiscordStructures this = None ->
  validateGameOptions opts = None ->
  replyRejects env = None ->
  queueSendRejects env = None ->
  start validateDiscordStructures validateGameOptions opts env this st
  = mkState (<[channelId this := self this]> (games st)) (players st)
      (questions st) (queueStopped st)
      (log st ++ [InteractionReply "Game has been started" true;
                  ChannelSend (GameQueueStart buttonRowQueue);
                  CreateMessageComponentCollector false (queueTime opts)])
      (promise st).
Proof.
  intros Hs Ho Hr Hq.
  unfold start, startBody, startComponentCollector, bind, orThrow, modify,
    throw, ret.
  rewrite Hs, Ho, Hr, Hq. simpl. unfold emit, setGames. simpl.
  by rewrite <- ?app_assoc.
Qed.

Lemma queueCollects_games (opts : TriviaGameOptionsStrict)
    (presses : list MessageComponentInteraction) (st : State) :
  games (queueCollects opts presses st) = games st.
Proof.
  revert st. induction presses as [| int rest IH]; intros st; [done |].
  simpl. destruct (queueStopped st); [done |].
  rewrite IH. apply QueueRuns.queueCollect_frame.
Qed.

(** X21.  A game that is started in a channel without a game and whose
    queue then ends below [minPlayerCount] leaves the manager's registry
    exactly as [start] found it. *)
Theorem failed_game_restores_registry (opts : TriviaGameOptionsStrict)
    (env : StartEnv) (this : Game)
    (presses : list MessageComponentInteraction) (ending : QueueEndEnv)
    (st : State) :
  validateDiscordStructures this = None ->
  validateGameOptions opts = None ->
  replyRejects env = None ->
  queueSendRejects env = None ->
  games st !! channelId this = None ->
  let queued :=
    queueCollects opts presses
      (start validateDiscordStructures validateGameOptions opts env this st) in
  Z.of_nat (size (players queued)) < minPlayerCount opts ->
  games (queueEnd opts this ending queued) = games st.
Proof.
  intros Hs Ho Hr Hq Hfree queued Hfew.
  rewrite QueueEnd.queueEnd_fails by done.
  assert (Hg : games queued = <[channelId this := self this]> (games st)).
  { subst queued. rewrite queueCollects_games.
    by rewrite start_goes_through. }
  unfold end_. destruct (deletable ending); simpl; rewrite Hg;
    by apply delete_insert_id.
Qed.

(** X22.  [end] deletes by channel id, not by game: when a second game was
    started in the channel of a first one, the first game's [end] removes
    the entry that by then belongs to the second game, and the channel is
    left without a registered game. *)
Theorem end_removes_successor (opts : TriviaGameOptionsStrict)
    (env : StartEnv) (first second : Game) (st : State) :
  validateDiscordStructures second = None ->
  validateGameOptions opts = None ->
  replyRejects env = None ->
  queueSendRejects env = None ->
  channelId first = channelId second ->
  let running :=
    start validateDiscordStructures validateGameOptions opts env second st in
  games running !! channelId second = Some (self second)
  /\ games (end_ first running) !! channelId second = None.
Proof.
  intros Hs Ho Hr Hq Hsame running. subst running.
  rewrite start_goes_through by done. unfold end_. simpl.
  rewrite lookup_insert_eq, Hsame, lookup_delete_eq. done.
Qed.

End Lifetime.

Lemma failed_game_restores_registry_witness :
  games (queueEnd defaults Samples.gameOne Samples.endedSilently
           (queueCollects defaults [Samples.ghostPress] Samples.queueOpen))
  = {[ "channel-9" := 7%nat ]}.
Proof.
  assert (Hfew : Z.of_nat
                   (size (players
                            (queueCollects defaults [Samples.ghostPress]
                               (start Samples.acceptAll Samples.acceptAll
                                  defaults Samples.quietStart Samples.gameOne
                                  (initialState {[ "channel-9" := 7%nat ]})))))
                 < minPlayerCount defaults) by (by vm_compute).
  exact (failed_game_restores_registry Samples.acceptAll Samples.acceptAll
           defaults Samples.quietStart Samples.gameOne [Samples.ghostPress]
           Samples.endedSilently (initialState {[ "channel-9" := 7%nat ]})
           eq_refl eq_refl eq_refl eq_refl eq_refl Hfew).
Defined.

Lemma end_removes_successor_witness :
  let running := start Samples.acceptAll Samples.acceptAll defaults
                   Samples.quietStart Samples.gameTwo Samples.queueOpen in
  games running !! "channel-1" = Some 2%nat
  /\ games (end_ Samples.gameOne running) !! "channel-1" = None.
Proof.
  exact (end_removes_successor Samples.acceptAll Samples.acceptAll defaults
           Samples.quietStart Samples.gameOne Samples.gameTwo Samples.queueOpen
           eq_refl eq_refl eq_refl eq_refl eq_refl).
Defined.

End Lifetimes.

(** ** A full queue *)
Module FullQueue.

Import TriviaGame Bookkeeping.

(** X10.  Once [maxPlayerCount] different users have joined the queue of a
    new game, one press after the other, the collect handler has stopped
    the collector with exactly [maxPlayerCount] players stored, and every
    later press is ignored: handling any further presses leaves the state
    as it was before them. *)
Theorem full_queue_ignores_later_presses (opts : TriviaGameOptionsStrict)
    (earlier later : list MessageComponentInteraction) (st : State) :
  players st = ∅ ->
  queueStopped st = None ->
  1 ≤ maxPlayerCount opts ->
  Forall wellFetched earlier ->
  NoDup (userId <$> earlier) ->
  maxPlayerCount opts ≤ Z.of_nat (length earlier) ->
  Z.of_nat (size (players (queueCollects opts earlier st)))
  = maxPlayerCount opts
  /\ is_Some (queueStopped (queueCollects opts earlier st))
  /\ queueCollects opts (earlier ++ later) st = queueCollects opts earlier st.
Proof.
  intros Hempty Hrun Hmax Hwf Hnd Hmany.
  assert (Hsize : Z.of_nat (size (players (queueCollects opts earlier st)))
                  = maxPlayerCount opts).
  { rewrite QueueRuns.distinct_joiners_fill; try done.
    - rewrite Hempty, map_size_empty. lia.
    - intros int _. by rewrite Hempty, lookup_empty.
    - rewrite Hempty, map_size_empty. lia. }
  assert (Hcap : withinCapacity opts (queueCollects opts earlier st)).
  { apply QueueEnd.queueCollects_withinCapacity. unfold withinCapacity.
    rewrite Hempty, Hrun, map_size_empty. split; [lia |].
    split; [by intros [? ?] | simpl; lia]. }
  destruct Hcap as (_ & Hiff). apply Hiff in Hsize as Hstop.
  split; [done |]. split; [done |].
  rewrite QueueRuns.queueCollects_app.
  destruct Hstop as [reason Hstop].
  destruct later; simpl; by rewrite ?Hstop.
Qed.

Lemma full_queue_ignores_later_presses_witness :
  queueCollects Samples.twoSeats
    ([Samples.joinPress Samples.alice; Samples.joinPress Samples.bob]
     ++ [Samples.joinPress Samples.carol; Samples.joinPress Samples.alice])
    (Samples.queueOpenWith Samples.twoSeats)
  = queueCollects Samples.twoSeats
      [Samples.joinPress Samples.alice; Samples.joinPress Samples.bob]
      (Samples.queueOpenWith Samples.twoSeats).
Proof.
  assert (Hwf : Forall wellFetched
                  [Samples.joinPress Samples.alice;
                   Samples.joinPress Samples.bob]).
  { repeat constructor; eexists; split; reflexivity. }
  assert (Hnd : NoDup (userId <$> [Samples.joinPress Samples.alice;
                                   Samples.joinPress Samples.bob])).
  { compute_done. }
  assert (Hmax : 1 ≤ maxPlayerCount Samples.twoSeats) by (by vm_compute).
  assert (Hmany : maxPlayerCount Samples.twoSeats
                  ≤ Z.of_nat (length [Samples.joinPress Samples.alice;
                                      Samples.joinPress Samples.bob]))
    by (by vm_compute).
  exact (proj2 (proj2 (full_queue_ignores_later_presses Samples.twoSeats
                         [Samples.joinPress Samples.alice;
                          Samples.joinPress Samples.bob]
                         [Samples.joinPress Samples.carol;
                          Samples.joinPress Samples.alice]
                         (Samples.queueOpenWith Samples.twoSeats)
                         eq_refl eq_refl Hmax Hwf Hnd Hmany))).
Defined.

End FullQueue.

(** ** Answers that arrive late *)
Module LateAnswers.

Import TriviaGame QuestionTurns.

Lemma oneByOne_round (q : TriviaQuestion)
    (presses : list MessageComponentInteraction) (st : State)
    (hs : list Waiting) :
  fold_left (roundTurn q) (oneByOne (length hs) presses)
    (mkRound st hs Collecting)
  = mkRound (questionEnd (fold_left (questionPress q) presses st))
      (hs ++ ((fun _ => Settled) <$> presses)) Pausing.
Proof.
  revert st hs. induction presses as [| i rest IH]; intros st hs.
  - simpl. by rewrite app_nil_r.
  - cbn [oneByOne fold_left]. cbn [roundTurn phase state handlers].
    rewrite lookup_app_r by lia. rewrite Nat.sub_diag.
    cbn [lookup list_lookup].
    assert (Hstep : forall w st',
              questionResume q
                (if questionFilter st i then AwaitingMember i else Settled) st
              = (st', w) ->
              st' = questionPress q st i /\ w = Settled).
    { intros w st'. unfold questionPress.
      destruct (questionFilter st i); cbn [questionResume]; by intros [= <- <-]. }
    destruct (questionResume q
                (if questionFilter st i then AwaitingMember i else Settled) st)
      as [st' w] eqn:Hres.
    destruct (Hstep w st' eq_refl) as (-> & ->).
    rewrite insert_app_r_alt by lia. rewrite Nat.sub_diag.
    cbn [insert list_insert].
    replace (S (length hs)) with (length (hs ++ [Settled]))
      by (rewrite length_app; simpl; lia).
    rewrite IH. cbn [fmap list_fmap]. by rewrite <- app_assoc.
Qed.

(** When every member fetch resolves before the next event, the round is
    the one [emitQuestion] describes. *)
Lemma undisturbed_round (opts : TriviaGameOptionsStrict) (q : TriviaQuestion)
    (presses : list MessageComponentInteraction) (st : State) :
  state (emitQuestionTurns opts q (oneByOne 0 presses) st)
  = emitQuestion opts q presses st.
Proof.
  unfold emitQuestionTurns, emitQuestion. cbv zeta.
  change 0%nat with (length (@nil Waiting)).
  by rewrite oneByOne_round.
Qed.

(** C7 (as the code behaves).  A registered player presses the correct
    answer, and the collector's timer runs out while that handler still
    waits for the member fetch.  The leaderboard that is sent shows the
    standings without the point; the point is added, and the "locked in"
    notice sent, only after the leaderboard went out. *)
Theorem late_answer_misses_leaderboard (opts : TriviaGameOptionsStrict)
    (q : TriviaQuestion) (i : MessageComponentInteraction) (st : State)
    (player : TriviaPlayer) (member : GuildMember) :
  players st !! userId i = Some player ->
  checkAnswer q (pressedAnswer q i) = true ->
  fetched i = Some member ->
  let r := emitQuestionTurns opts q
             [Press i; TimeUp; MemberFetched 0; LeaderboardSent] st in
  log (state r)
  = log st ++ [ChannelSend (Question q (buttonRows (type q)));
               CreateMessageComponentCollector true (timePerQuestion opts);
               ChannelSend (LeaderboardUpdate (players st));
               lockedIn member i;
               Wait 5000]
  /\ players (state r) !! userId i
     = Some (mkPlayer (id player) (displayName player) (points player + 1)
               (hasAnswered player) (isCorrect player)
               (leaderboardPosition player))
  /\ phase r = Pausing.
Proof.
  intros Hp Hc Hf r. subst r.
  assert (Hpl : forall e s, players (emit e s) = players s) by done.
  unfold emitQuestionTurns. cbv zeta. cbn [fold_left].
  cbn [roundTurn phase state handlers app].
  unfold questionFilter. rewrite !Hpl.
  rewrite bool_decide_eq_true_2 by (rewrite Hp; eauto).
  cbn [lookup list_lookup questionResume insert list_insert phase state
       handlers roundTurn].
  unfold questionCollect. rewrite !Hpl, Hp, Hc, Hf.
  cbn [phase state handlers]. unfold lockedIn.
  simpl. rewrite lookup_insert_eq. split; [| done].
  by rewrite <- !app_assoc.
Qed.

Lemma late_answer_misses_leaderboard_witness :
  let r := emitQuestionTurns defaults Samples.capital
             [Press (Samples.answerPress Samples.alice 0); TimeUp;
              MemberFetched 0; LeaderboardSent] Samples.twoQueued in
  log (state r)
  = log Samples.twoQueued
    ++ [ChannelSend (Question Samples.capital buttonRowChoicesMultiple);
        CreateMessageComponentCollector true 20000;
        ChannelSend (LeaderboardUpdate (players Samples.twoQueued));
        ChannelSend (Content "**Alice** has locked in!");
        Wait 5000]
  /\ (points <$> players Samples.twoQueued !! "100") = Some 0
  /\ (points <$> players (state r) !! "100") = Some 1.
Proof.
  pose proof (late_answer_misses_leaderboard defaults Samples.capital
                (Samples.answerPress Samples.alice 0) Samples.twoQueued
                (initialPlayer Samples.alice) Samples.alice
                eq_refl eq_refl eq_refl) as (Hl & Hp & _).
  split; [exact Hl |]. split; [reflexivity |].
  etrans; [exact (f_equal (fmap points) Hp) | reflexivity].
Defined.

End LateAnswers.
